(** * Pyomo gallery: the diet problem and the maximum-flow problem

    A shallow embedding of the two abstract Pyomo models of the gallery
    (diet/DietProblem.ipynb, [diet.py], and the max-flow notebook,
    [maxflow.py]) with the data command files and solver reports that the
    notebooks display, and the properties checked against them.

    Numbers.  The notebooks compute with Python floats.  Here a finite
    number is a rational [Q]; [float('inf')], which the diet model uses as
    the default of [Nmax], is the extra element [PInf] of [num].
    Parameters that the rules multiply with a variable ([c], [a], [V]) are
    rationals; parameters that the rules use as bounds ([Nmin], [Nmax],
    [Vmax], the arc capacity [c]) are extended rationals. *)

From Stdlib Require Import QArith Qabs Lqa.
From stdpp Require Import gmap strings list fin_maps.

Local Open Scope Q_scope.
Local Open Scope string_scope.

(** ** Numbers *)

Inductive num : Type :=
| Fin (q : Q)
| PInf.

Definition num_le (a b : num) : Prop :=
  match a, b with
  | Fin x, Fin y => x <= y
  | _, PInf => True
  | PInf, Fin _ => False
  end.

Definition num_lt (a b : num) : Prop :=
  match a, b with
  | Fin x, Fin y => x < y
  | Fin _, PInf => True
  | PInf, _ => False
  end.

Definition num_leb (a b : num) : bool :=
  match a, b with
  | Fin x, Fin y => Qle_bool x y
  | _, PInf => true
  | PInf, Fin _ => false
  end.

Class Numeric (A : Type) := to_num : A -> num.
#[export] Instance Numeric_Q : Numeric Q := Fin.
#[export] Instance Numeric_num : Numeric num := fun n => n.

(** ** Domains ([within=...])

    The virtual sets of Pyomo that the two models name. *)

Definition is_integer (q : Q) : bool := (Zpos (Qden (Qred q)) =? 1)%Z.

Inductive domain : Type :=
| PositiveReals
| NonNegativeReals
| NonNegativeIntegers.

Definition contains {A} `{Numeric A} (d : domain) (v : A) : bool :=
  match d, to_num v with
  | PositiveReals, Fin q => negb (Qle_bool q 0)
  | PositiveReals, PInf => true
  | NonNegativeReals, Fin q => Qle_bool 0 q
  | NonNegativeReals, PInf => true
  | NonNegativeIntegers, Fin q => Qle_bool 0 q && is_integer q
  | NonNegativeIntegers, PInf => false
  end.

(** ** Errors

    Instantiation either yields a value or raises one of the errors of
    the taxonomy. *)

Inductive error : Type :=
| MissingDataError
| DataValidationError
| ModelDefinitionError.

Inductive result (A : Type) : Type :=
| Ok (a : A)
| Raise (e : error).
Arguments Ok {A} a.
Arguments Raise {A} e.

#[export] Instance result_ret : MRet result := fun A a => Ok a.
#[export] Instance result_bind : MBind result := fun A B k r =>
  match r with
  | Ok a => k a
  | Raise e => Raise e
  end.

(** [for_each f l] runs [f] on the elements of [l] in order and stops at
    the first error, as a comprehension whose body raises. *)
Fixpoint for_each {A B} (f : A -> result B) (l : list A) : result (list B) :=
  match l with
  | [] => Ok []
  | a :: l' => b ← f a; bs ← for_each f l'; Ok (b :: bs)
  end.

(** [comprehension body cond l] is the generator
    [(body a for a in l if cond a)]: the condition is evaluated for every
    element, the body for those that pass. *)
Fixpoint comprehension {A B} (body : A -> result B) (cond : A -> result bool)
    (l : list A) : result (list B) :=
  match l with
  | [] => Ok []
  | a :: l' =>
      keep ← cond a;
      if keep : bool
      then b ← body a; bs ← comprehension body cond l'; Ok (b :: bs)
      else comprehension body cond l'
  end.

(** [sum_over g l] is the number [sum(g(a) for a in l)]. *)
Fixpoint sum_over {A} (g : A -> Q) (l : list A) : Q :=
  match l with
  | [] => 0
  | a :: l' => g a + sum_over g l'
  end.

(** ** Expressions

    A product [p * model.x[i]] of a parameter value and a variable is a
    term.  Python's builtin [sum] starts from the integer [0]: over an
    empty generator the result is that number, not a Pyomo expression. *)

Section Expressions.
Context {V : Type}.

Definition term : Type := (Q * V)%type.

Inductive expr : Type :=
| PyNumber (q : Q)
| Linear (ts : list term).

Definition pysum (ts : list term) : expr :=
  match ts with
  | [] => PyNumber 0
  | _ :: _ => Linear ts
  end.

Definition assignment : Type := V -> Q.

Fixpoint eval_terms (x : assignment) (ts : list term) : Q :=
  match ts with
  | [] => 0
  | (q, v) :: ts' => q * x v + eval_terms x ts'
  end.

Definition eval (x : assignment) (e : expr) : Q :=
  match e with
  | PyNumber q => q
  | Linear ts => eval_terms x ts
  end.

(** The result of a relational operator or of [inequality]. *)
Inductive relation : Type :=
| Ranged (lo : num) (body : expr) (hi : num)
| LessEq (lhs : expr) (rhs : num)
| Equal (lhs rhs : expr).

(** What a constraint rule returns. *)
Inductive rule_result : Type :=
| Skip
| PyBool (b : bool)
| Rel (r : relation).

(** [inequality(lower, body, upper)] always builds a ranged expression. *)
Definition inequality (lo : num) (body : expr) (hi : num) : rule_result :=
  Rel (Ranged lo body hi).

(** [lhs <= rhs]: between two Python numbers the comparison is a Python
    bool; as soon as one side is a Pyomo expression it is a relational
    expression. *)
Definition py_le (lhs : expr) (rhs : num) : rule_result :=
  match lhs with
  | PyNumber q => PyBool (num_leb (Fin q) rhs)
  | Linear _ => Rel (LessEq lhs rhs)
  end.

(** [lhs == rhs], likewise. *)
Definition py_eq (lhs rhs : expr) : rule_result :=
  match lhs, rhs with
  | PyNumber a, PyNumber b => PyBool (Qeq_bool a b)
  | _, _ => Rel (Equal lhs rhs)
  end.

Definition satisfies (x : assignment) (r : relation) : Prop :=
  match r with
  | Ranged lo body hi =>
      num_le lo (Fin (eval x body)) /\ num_le (Fin (eval x body)) hi
  | LessEq lhs rhs => num_le (Fin (eval x lhs)) rhs
  | Equal lhs rhs => eval x lhs == eval x rhs
  end.

Definition satisfiesb (x : assignment) (r : relation) : bool :=
  match r with
  | Ranged lo body hi =>
      num_leb lo (Fin (eval x body)) && num_leb (Fin (eval x body)) hi
  | LessEq lhs rhs => num_leb (Fin (eval x lhs)) rhs
  | Equal lhs rhs => Qeq_bool (eval x lhs) (eval x rhs)
  end.

End Expressions.
Arguments term V : clear implicits.
Arguments expr V : clear implicits.
Arguments assignment V : clear implicits.
Arguments relation V : clear implicits.
Arguments rule_result V : clear implicits.

(** ** Components of an abstract model *)

(** The components [Set], [Param], [Objective] and [Constraint] belong to
    the modelling library that both notebooks import
    ([from pyomo.environ import *]); the notebooks only call them.  They
    are modelled as far as the two models use them, with the errors named
    as in the error taxonomy. *)

(** Modelled from the spec: the [Set] component.  Elements are unique and
    lie in the superset given by [within=]; a violation is a
    data-validation error raised at load time. *)
Definition construct_set {A} `{EqDecision A}
    (within : A -> bool) (elements : list A) : result (list A) :=
  if bool_decide (NoDup elements) && forallb within elements
  then Ok elements
  else Raise DataValidationError.

(** Modelled from the spec: the [Param] component.  A declaration
    carries the [within=] domain and the optional [default=]. *)
Record Param (A : Type) : Type := mkParam {
  within : A -> bool;
  default_value : option A
}.
Arguments mkParam {A} within default_value.
Arguments within {A} p v.
Arguments default_value {A} p.

(** Modelled from the spec: loading the data of a parameter.  Every
    provided index lies in the index set and every provided value lies in
    the declared domain; a violation is a data-validation error. *)
Definition construct_param {K A} `{Countable K}
    (p : Param A) (index : list K) (data : gmap K A) : result (gmap K A) :=
  if bool_decide (map_Forall (fun k v => k ∈ index /\ within p v = true) data)
  then Ok data
  else Raise DataValidationError.

(** Modelled from the spec: the value of a parameter at an index, given
    what the data provides there (a period in a data table provides
    nothing): the provided value, else the declared default, else a
    missing-data error. *)
Definition param_value {A} (p : Param A) (provided : option A) : result A :=
  match provided with
  | Some v => Ok v
  | None =>
      match default_value p with
      | Some d => Ok d
      | None => Raise MissingDataError
      end
  end.

Inductive sense : Type := minimize | maximize.

(** The [Objective] component.  Its [sense=] keyword defaults to
    [minimize]: the diet model gives no sense, and the solver report that
    its notebook displays reads [Sense: minimize]. *)
Definition Objective {V} (rule : result (expr V)) (sense_kw : option sense)
    : result (sense * expr V) :=
  e ← rule; Ok (default minimize sense_kw, e).

(** The [Constraint] component.  The rule runs once per index, in order.
    [Constraint.Skip] generates no instance for the index; a relational
    expression becomes the instance of the index, with its bounds as the
    rule gave them; a Python bool is not a constraint expression, and the
    library aborts the construction on it. *)
Fixpoint Constraint {I V} (index : list I) (rule : I -> result (rule_result V))
    : result (list (I * relation V)) :=
  match index with
  | [] => Ok []
  | k :: index' =>
      r ← rule k;
      match r with
      | Skip => Constraint index' rule
      | PyBool _ => Raise ModelDefinitionError
      | Rel rel => cs ← Constraint index' rule; Ok ((k, rel) :: cs)
      end
  end.

(** ** Materialized models and what a solve means *)

Record Model (V : Type) : Type := mkModel {
  variables : list V;
  var_domain : domain;
  obj_sense : sense;
  objective : expr V;
  constraints : list (relation V)
}.
Arguments mkModel {V}.
Arguments variables {V} m.
Arguments var_domain {V} m.
Arguments obj_sense {V} m.
Arguments objective {V} m.
Arguments constraints {V} m.

Section Solving.
Context {V : Type}.
Implicit Types (m : Model V) (x y : assignment V).

Definition is_feasible m x : Prop :=
  (forall v, In v (variables m) -> contains (var_domain m) (x v) = true) /\
  (forall r, In r (constraints m) -> satisfies x r).

Definition is_feasibleb m x : bool :=
  forallb (fun v => contains (var_domain m) (x v)) (variables m) &&
  forallb (satisfiesb x) (constraints m).

Definition value_of m x : Q := eval x (objective m).

(** [no_worse s u v]: for the sense [s], the objective value [u] is at
    least as good as [v]. *)
Definition no_worse (s : sense) (u v : Q) : Prop :=
  match s with
  | minimize => u <= v
  | maximize => v <= u
  end.

Definition is_optimal m x : Prop :=
  is_feasible m x /\
  forall y, is_feasible m y -> no_worse (obj_sense m) (value_of m x) (value_of m y).

(** The outcome of a solve.  Only the first two variants carry an
    assignment and an objective value. *)
Inductive SolveOutcome : Type :=
| optimal (x : assignment V) (value : Q)
| feasible (x : assignment V) (value : Q)
| infeasible
| unbounded
| solver_error.

Definition assignment_of (o : SolveOutcome) : option (assignment V) :=
  match o with
  | optimal x _ | feasible x _ => Some x
  | infeasible | unbounded | solver_error => None
  end.

(** Modelled from the spec: the Solver Adapter, an external solver that
    is not part of the notebooks.  [solved m o] says that [o] is a
    truthful verdict of a solve of [m] that ran to completion: an
    assignment that comes with it is feasible, [optimal] is a best
    feasible assignment for the sense of the objective, [infeasible]
    means that no assignment is feasible, and [unbounded] that feasible
    assignments reach every objective value.  A failure of the solver
    process ([solver_error]) is no verdict. *)
Definition solved m (o : SolveOutcome) : Prop :=
  match o with
  | optimal x v => is_optimal m x /\ v == value_of m x
  | feasible x v => is_feasible m x /\ v == value_of m x
  | infeasible => forall x, ~ is_feasible m x
  | unbounded =>
      forall bound, exists x,
        is_feasible m x /\ no_worse (obj_sense m) (value_of m x) bound
  | solver_error => False
  end.

End Solving.
Arguments SolveOutcome V : clear implicits.

(** * The diet problem ([diet.py]) *)

Module Diet.

Definition infinity : num := PInf.

(** What the data command file provides for the sets and parameters of
    the abstract model. *)
Record Data : Type := mkData {
  F : list string;
  N : list string;
  c : gmap string Q;
  a : gmap (string * string) Q;
  Nmin : gmap string num;
  Nmax : gmap string num;
  V : gmap string Q;
  Vmax : option num
}.

(** The parameter declarations. *)
Definition c_decl : Param Q := mkParam (contains PositiveReals) None.
Definition a_decl : Param Q := mkParam (contains NonNegativeReals) None.
Definition Nmin_decl : Param num :=
  mkParam (contains NonNegativeReals) (Some (Fin 0.0)).
Definition Nmax_decl : Param num :=
  mkParam (contains NonNegativeReals) (Some infinity).
Definition V_decl : Param Q := mkParam (contains PositiveReals) None.
Definition Vmax_decl : Param num := mkParam (contains PositiveReals) None.

(** [model.x = Var(model.F, within=NonNegativeIntegers)] *)
Definition x_domain : domain := NonNegativeIntegers.

Section Rules.
Variable model : Data.

(** [sum(model.c[i]*model.x[i] for i in model.F)] *)
Definition cost_rule : result (expr string) :=
  ts ← for_each (fun i => ci ← param_value c_decl (c model !! i); Ok (ci, i))
                (F model);
  Ok (pysum ts).

(** [value = sum(model.a[i,j]*model.x[i] for i in model.F)]
    [return inequality(model.Nmin[j], value, model.Nmax[j])] *)
Definition nutrient_rule (j : string) : result (rule_result string) :=
  ts ← for_each (fun i => aij ← param_value a_decl (a model !! (i, j));
                          Ok (aij, i))
                (F model);
  let value := pysum ts in
  lo ← param_value Nmin_decl (Nmin model !! j);
  hi ← param_value Nmax_decl (Nmax model !! j);
  Ok (inequality lo value hi).

(** [sum(model.V[i]*model.x[i] for i in model.F) <= model.Vmax] *)
Definition volume_rule : result (rule_result string) :=
  ts ← for_each (fun i => vi ← param_value V_decl (V model !! i); Ok (vi, i))
                (F model);
  vmax ← param_value Vmax_decl (Vmax model);
  Ok (py_le (pysum ts) vmax).
End Rules.

(** The components of an instance of the model. *)
Record Instance : Type := mkInstance {
  x : list string;
  cost : sense * expr string;
  nutrient_limit : list (string * relation string);
  volume : list (unit * relation string)
}.

Definition scalar {A} (v : option A) : gmap unit A :=
  match v with
  | Some v => {[ tt := v ]}
  | None => ∅
  end.

(** Instantiation: the components are constructed in the order of their
    declaration. *)
Definition create_instance (data : Data) : result Instance :=
  f ← construct_set (fun _ => true) (F data);
  n ← construct_set (fun _ => true) (N data);
  _ ← construct_param c_decl f (c data);
  _ ← construct_param a_decl (list_prod f n) (a data);
  _ ← construct_param Nmin_decl n (Nmin data);
  _ ← construct_param Nmax_decl n (Nmax data);
  _ ← construct_param V_decl f (V data);
  _ ← construct_param Vmax_decl [tt] (scalar (Vmax data));
  cost ← Objective (cost_rule data) None;
  nutrient_limit ← Constraint n (nutrient_rule data);
  volume ← Constraint [tt] (fun _ => volume_rule data);
  Ok (mkInstance f cost nutrient_limit volume).

(** The loading part of instantiation: the sets and the parameters are
    constructed from the data, in the order of their declaration, before
    the objective and the constraints run their rules. *)
Definition load (data : Data) : result unit :=
  f ← construct_set (fun _ => true) (F data);
  n ← construct_set (fun _ => true) (N data);
  _ ← construct_param c_decl f (c data);
  _ ← construct_param a_decl (list_prod f n) (a data);
  _ ← construct_param Nmin_decl n (Nmin data);
  _ ← construct_param Nmax_decl n (Nmax data);
  _ ← construct_param V_decl f (V data);
  _ ← construct_param Vmax_decl [tt] (scalar (Vmax data));
  Ok tt.

(** The model handed to the solver. *)
Definition to_model (inst : Instance) : Model string :=
  mkModel (x inst) x_domain (fst (cost inst)) (snd (cost inst))
          (map snd (nutrient_limit inst) ++ map snd (volume inst)).

(** The data command file [diet.dat] of the notebook. *)
Definition foods : list string :=
  ["Cheeseburger"; "Ham Sandwich"; "Hamburger"; "Fish Sandwich";
   "Chicken Sandwich"; "Fries"; "Sausage Biscuit"; "Lowfat Milk";
   "Orange Juice"].

Definition nutrients : list string :=
  ["Cal"; "Carbo"; "Protein"; "VitA"; "VitC"; "Calc"; "Iron"].

Definition table_row (food : string) (amounts : list Q)
    : list ((string * string) * Q) :=
  zip (map (pair food) nutrients) amounts.

Definition diet_dat : Data := {|
  F := foods;
  N := nutrients;
  c := list_to_map (zip foods
         [1.84; 2.19; 1.84; 1.44; 2.29; 0.77; 1.29; 0.60; 0.72]);
  V := list_to_map (zip foods
         [4.0; 7.5; 3.5; 5.0; 7.3; 2.6; 4.1; 8.0; 12.0]);
  Vmax := Some (Fin 75.0);
  Nmin := list_to_map (zip nutrients
         [Fin 2000; Fin 350; Fin 55; Fin 100; Fin 100; Fin 100; Fin 100]);
  Nmax := {[ "Carbo" := Fin 375 ]};
  a := list_to_map (
    table_row "Cheeseburger"     [510; 34; 28; 15; 6; 30; 20] ++
    table_row "Ham Sandwich"     [370; 35; 24; 15; 10; 20; 20] ++
    table_row "Hamburger"        [500; 42; 25; 6; 2; 25; 20] ++
    table_row "Fish Sandwich"    [370; 38; 14; 2; 0; 15; 10] ++
    table_row "Chicken Sandwich" [400; 42; 31; 8; 15; 15; 8] ++
    table_row "Fries"            [220; 26; 3; 0; 15; 0; 2] ++
    table_row "Sausage Biscuit"  [345; 27; 15; 4; 0; 20; 15] ++
    table_row "Lowfat Milk"      [110; 12; 9; 10; 4; 30; 0] ++
    table_row "Orange Juice"     [80; 20; 1; 2; 120; 2; 2])
|}.

(** The assignment of the solver report [results.yml]; variables that
    the report does not list are zero. *)
Definition results_yml : assignment string := fun i =>
  if String.eqb i "Cheeseburger" then 4
  else if String.eqb i "Fries" then 5
  else if String.eqb i "Fish Sandwich" then 1
  else if String.eqb i "Lowfat Milk" then 4
  else 0.

(** [sum_{i in F} c_i * x_i], the cost of the problem statement. *)
Definition total_cost (model : Data) (x : assignment string) : Q :=
  fold_right (fun i acc =>
                match c model !! i with
                | Some ci => ci * x i + acc
                | None => acc
                end) 0 (F model).

(** The quantities of the problem statement: the amount of nutrient [j]
    in a diet, [sum_{i in F} a_ij * x_i], its volume,
    [sum_{i in F} V_i * x_i], and the bounds of a nutrient with the
    declared defaults applied. *)
Definition amount (model : Data) (j : string) (x : assignment string) : Q :=
  sum_over (fun i => match a model !! (i, j) with
                     | Some q => q * x i
                     | None => 0
                     end) (F model).

Definition total_volume (model : Data) (x : assignment string) : Q :=
  sum_over (fun i => match V model !! i with
                     | Some q => q * x i
                     | None => 0
                     end) (F model).

Definition Nmin_of (model : Data) (j : string) : num :=
  default (Fin 0.0) (Nmin model !! j).

Definition Nmax_of (model : Data) (j : string) : num :=
  default infinity (Nmax model !! j).

(** A number of servings: a non-negative integer. *)
Definition servings (q : Q) : Prop :=
  0 <= q /\ exists n : Z, q == inject_Z n.

(** Eating nothing. *)
Definition nothing : assignment string := fun _ => 0.

(** A data set without any food. *)
Definition no_food : Data := {|
  F := [];
  N := ["Cal"];
  c := ∅;
  a := ∅;
  Nmin := ∅;
  Nmax := ∅;
  V := ∅;
  Vmax := Some (Fin 10)
|}.

(** One food that costs nothing, and one nutrient without requirement. *)
Definition free_lunch : Data := {|
  F := ["A"];
  N := ["Cal"];
  c := {[ "A" := 0 ]};
  a := {[ ("A", "Cal") := 500 ]};
  Nmin := ∅;
  Nmax := ∅;
  V := {[ "A" := 1.0 ]};
  Vmax := Some (Fin 10)
|}.

Definition no_requirements : Data := {|
  F := ["A"];
  N := ["Cal"];
  c := {[ "A" := 1.0 ]};
  a := {[ ("A", "Cal") := 500 ]};
  Nmin := ∅;
  Nmax := {[ "Cal" := Fin 2000 ]};
  V := {[ "A" := 1.0 ]};
  Vmax := Some (Fin 10)
|}.

(** Two data sets that list the same foods and nutrients in different
    orders and agree on every table. *)
Definition reordered (d1 d2 : Data) : Prop :=
  Permutation (F d1) (F d2) /\ Permutation (N d1) (N d2) /\
  c d1 = c d2 /\ a d1 = a d2 /\ Nmin d1 = Nmin d2 /\ Nmax d1 = Nmax d2 /\
  V d1 = V d2 /\ Vmax d1 = Vmax d2.

(** A two-food data set: both foods supply 500 calories, at least 1000
    are required, and no upper bound is given. *)
Definition two_foods : Data := {|
  F := ["A"; "B"];
  N := ["Cal"];
  c := {[ "A" := 1.0; "B" := 2.0 ]};
  a := {[ ("A", "Cal") := 500; ("B", "Cal") := 500 ]};
  Nmin := {[ "Cal" := Fin 1000 ]};
  Nmax := ∅;
  V := ∅;
  Vmax := None
|}.

(** The cost objective and the nutrient constraints of a data set over
    the declared variables. *)
Definition cost_and_nutrients (data : Data) : result (Model string) :=
  cost ← Objective (cost_rule data) None;
  nutrient_limit ← Constraint (N data) (nutrient_rule data);
  Ok (mkModel (F data) x_domain (fst cost) (snd cost)
              (map snd nutrient_limit)).

Definition two_of_A : assignment string := fun i =>
  if String.eqb i "A" then 2 else 0.

(** The same foods with a volume each, so that the whole model
    instantiates. *)
Definition two_foods_with_volume : Data := {|
  F := F two_foods; N := N two_foods; c := c two_foods; a := a two_foods;
  Nmin := Nmin two_foods; Nmax := Nmax two_foods;
  V := {[ "A" := 1.0; "B" := 1.0 ]};
  Vmax := Some (Fin 10)
|}.

(** The same data with the foods listed the other way round. *)
Definition two_foods_reversed : Data := {|
  F := ["B"; "A"]; N := N two_foods; c := c two_foods; a := a two_foods;
  Nmin := Nmin two_foods; Nmax := Nmax two_foods;
  V := V two_foods_with_volume;
  Vmax := Vmax two_foods_with_volume
|}.

(** No food supplies any calories, yet 1000 are required. *)
Definition no_calories : Data := {|
  F := ["A"; "B"];
  N := ["Cal"];
  c := {[ "A" := 1.0; "B" := 2.0 ]};
  a := {[ ("A", "Cal") := 0; ("B", "Cal") := 0 ]};
  Nmin := {[ "Cal" := Fin 1000 ]};
  Nmax := ∅;
  V := {[ "A" := 1.0; "B" := 1.0 ]};
  Vmax := Some (Fin 10)
|}.

(** The lower bound of the calories exceeds their upper bound. *)
Definition crossed_bounds : Data := {|
  F := ["A"; "B"];
  N := ["Cal"];
  c := {[ "A" := 1.0; "B" := 2.0 ]};
  a := {[ ("A", "Cal") := 500; ("B", "Cal") := 500 ]};
  Nmin := {[ "Cal" := Fin 1000 ]};
  Nmax := {[ "Cal" := Fin 500 ]};
  V := {[ "A" := 1.0; "B" := 1.0 ]};
  Vmax := Some (Fin 10)
|}.

End Diet.

(** * The maximum-flow problem ([maxflow.py]) *)

Module MaxFlow.

Abbreviation node := string.
Abbreviation arc := (string * string)%type.

Record Data : Type := mkData {
  N : list node;
  A : list arc;
  s : option node;
  t : option node;
  c : gmap arc num
}.

(** The parameter declarations; [within=model.N] is membership in the
    node set of the instance. *)
Definition s_decl (n : list node) : Param node :=
  mkParam (fun v => bool_decide (v ∈ n)) None.
Definition t_decl (n : list node) : Param node :=
  mkParam (fun v => bool_decide (v ∈ n)) None.
Definition c_decl : Param num := mkParam (fun _ => true) None.

(** [model.f = Var(model.A, within=NonNegativeReals)] *)
Definition f_domain : domain := NonNegativeReals.

(** [model.f[i,j]] as an expression: the variable itself. *)
Definition f (ij : arc) : term arc := (1, ij).

Section Rules.
Variable model : Data.

(** [value(model.s)] and [value(model.t)] *)
Definition value_s : result node := param_value (s_decl (N model)) (s model).
Definition value_t : result node := param_value (t_decl (N model)) (t model).

(** [sum(model.f[i,j] for (i, j) in model.A if j == value(model.t))] *)
Definition total_rule : result (expr arc) :=
  ts ← comprehension (fun ij => Ok (f ij))
                     (fun '(i, j) => tv ← value_t; Ok (String.eqb j tv))
                     (A model);
  Ok (pysum ts).

(** [model.f[i,j] <= model.c[i, j]] *)
Definition limit_rule (i j : node) : result (rule_result arc) :=
  cij ← param_value c_decl (c model !! (i, j));
  Ok (py_le (Linear [f (i, j)]) cij).

(** [if k == value(model.s) or k == value(model.t): return Constraint.Skip]
    [inFlow  = sum(model.f[i,j] for (i,j) in model.A if j == k)]
    [outFlow = sum(model.f[i,j] for (i,j) in model.A if i == k)]
    [return inFlow == outFlow] *)
Definition flow_rule (k : node) : result (rule_result arc) :=
  sv ← value_s;
  at_end ← (if String.eqb k sv then Ok true
            else tv ← value_t; Ok (String.eqb k tv));
  if at_end : bool then Ok Skip
  else
    ins ← comprehension (fun ij => Ok (f ij))
                        (fun '(i, j) => Ok (String.eqb j k)) (A model);
    let inFlow := pysum ins in
    outs ← comprehension (fun ij => Ok (f ij))
                         (fun '(i, j) => Ok (String.eqb i k)) (A model);
    let outFlow := pysum outs in
    Ok (py_eq inFlow outFlow).
End Rules.

Record Instance : Type := mkInstance {
  flows : list arc;
  total : sense * expr arc;
  limit : list (arc * relation arc);
  flow : list (node * relation arc)
}.

Definition scalar {B} (v : option B) : gmap unit B :=
  match v with
  | Some v => {[ tt := v ]}
  | None => ∅
  end.

Definition create_instance (data : Data) : result Instance :=
  n ← construct_set (fun _ => true) (N data);
  arcs ← construct_set
           (fun '(i, j) => bool_decide (i ∈ n) && bool_decide (j ∈ n))
           (A data);
  _ ← construct_param (s_decl n) [tt] (scalar (s data));
  _ ← construct_param (t_decl n) [tt] (scalar (t data));
  _ ← construct_param c_decl arcs (c data);
  total ← Objective (total_rule data) (Some maximize);
  limit ← Constraint arcs (fun '(i, j) => limit_rule data i j);
  flow ← Constraint n (flow_rule data);
  Ok (mkInstance arcs total limit flow).

Definition to_model (inst : Instance) : Model arc :=
  mkModel (flows inst) f_domain (fst (total inst)) (snd (total inst))
          (map snd (limit inst) ++ map snd (flow inst)).

(** The data command file [maxflow.dat] of the notebook. *)
Definition maxflow_dat : Data := {|
  N := ["Zoo"; "A"; "B"; "C"; "D"; "E"; "Home"];
  A := [("Zoo", "A"); ("Zoo", "B"); ("A", "C"); ("A", "D"); ("B", "A");
        ("B", "C"); ("C", "D"); ("C", "E"); ("D", "E"); ("D", "Home");
        ("E", "Home")];
  s := Some "Zoo";
  t := Some "Home";
  c := list_to_map
    [(("Zoo", "A"), Fin 11); (("Zoo", "B"), Fin 8); (("A", "C"), Fin 5);
     (("A", "D"), Fin 8); (("B", "A"), Fin 4); (("B", "C"), Fin 3);
     (("C", "D"), Fin 2); (("C", "E"), Fin 4); (("D", "E"), Fin 5);
     (("D", "Home"), Fin 8); (("E", "Home"), Fin 6)]
|}.

Definition arc_eqb (u v : arc) : bool :=
  String.eqb (fst u) (fst v) && String.eqb (snd u) (snd v).

Fixpoint lookup_flow (l : list (arc * Q)) (ij : arc) : Q :=
  match l with
  | [] => 0
  | (k, q) :: l' => if arc_eqb k ij then q else lookup_flow l' ij
  end.

(** The assignment of the solver report [results.yml]; the report does
    not list variables that are zero. *)
Definition results_yml : assignment arc := lookup_flow
  [(("C", "E"), 4); (("C", "D"), 2); (("Zoo", "A"), 7); (("A", "C"), 3);
   (("E", "Home"), 6); (("B", "A"), 4); (("D", "Home"), 8); (("D", "E"), 2);
   (("B", "C"), 3); (("Zoo", "B"), 7); (("A", "D"), 8)].

(** The arcs into a node and the arcs out of it. *)
Definition into (k : node) (ij : arc) : bool := String.eqb (snd ij) k.
Definition out_of (k : node) (ij : arc) : bool := String.eqb (fst ij) k.

(** The flow into a node, the flow out of it, and the capacity of the
    arcs into it. *)
Definition inflow (model : Data) (k : node) (x : assignment arc) : Q :=
  sum_over x (List.filter (into k) (A model)).

Definition outflow (model : Data) (k : node) (x : assignment arc) : Q :=
  sum_over x (List.filter (out_of k) (A model)).

Definition capacity_into (model : Data) (k : node) : Q :=
  sum_over (fun ij => match c model !! ij with
                      | Some (Fin q) => q
                      | _ => 0
                      end) (List.filter (into k) (A model)).

(** A node other than the source and the sink. *)
Definition inner (sv tv k : node) : bool :=
  negb (String.eqb k sv) && negb (String.eqb k tv).

(** No flow at all. *)
Definition no_flow : assignment arc := fun _ => 0.

(** The objective as the problem statement of the notebook writes it,
    [sum_{(i,t) in A} c_{i,t} * f_{i,t}]. *)
Definition stated_objective (model : Data) (tv : node) : list (term arc) :=
  flat_map (fun ij =>
              if String.eqb (snd ij) tv
              then match c model !! ij with
                   | Some (Fin q) => [(q, ij)]
                   | _ => []
                   end
              else [])
           (A model).

(** The coefficient of a variable in an expression. *)
Fixpoint coefficient_in (ts : list (term arc)) (v : arc) : Q :=
  match ts with
  | [] => 0
  | (q, u) :: ts' =>
      if arc_eqb u v then q + coefficient_in ts' v else coefficient_in ts' v
  end.

Definition coefficient (e : expr arc) (v : arc) : Q :=
  match e with
  | PyNumber _ => 0
  | Linear ts => coefficient_in ts v
  end.

(** An arc that names a node outside the node set, and an arc of
    negative capacity. *)
Definition foreign_arc : Data := {|
  N := ["s"; "t"];
  A := [("s", "t"); ("s", "u")];
  s := Some "s";
  t := Some "t";
  c := {[ ("s", "t") := Fin 1; ("s", "u") := Fin 1 ]}
|}.

Definition negative_capacity : Data := {|
  N := ["s"; "t"];
  A := [("s", "t")];
  s := Some "s";
  t := Some "t";
  c := {[ ("s", "t") := Fin (-1) ]}
|}.

(** A network without sink. *)
Definition no_sink : Data := {|
  N := ["s"; "a"];
  A := [("s", "a")];
  s := Some "s";
  t := None;
  c := {[ ("s", "a") := Fin 1 ]}
|}.

(** Two data sets that list the same nodes and arcs in different orders
    and agree on source, sink and capacities. *)
Definition reordered (d1 d2 : Data) : Prop :=
  Permutation (N d1) (N d2) /\ Permutation (A d1) (A d2) /\
  s d1 = s d2 /\ t d1 = t d2 /\ c d1 = c d2.

(** A network that consists of its source: no arc, and no sink given. *)
Definition lone_source : Data := {|
  N := ["s"];
  A := [];
  s := Some "s";
  t := None;
  c := ∅
|}.

(** A chain of two arcs from the source to the sink. *)
Definition chain : Data := {|
  N := ["s"; "a"; "t"];
  A := [("s", "a"); ("a", "t")];
  s := Some "s";
  t := Some "t";
  c := {[ ("s", "a") := Fin 10; ("a", "t") := Fin 4 ]}
|}.

Definition four_through : assignment arc := fun _ => 4.

(** The chain with nodes and arcs listed the other way round. *)
Definition chain_reversed : Data := {|
  N := ["t"; "a"; "s"];
  A := [("a", "t"); ("s", "a")];
  s := Some "s";
  t := Some "t";
  c := {[ ("s", "a") := Fin 10; ("a", "t") := Fin 4 ]}
|}.

(** The chain with one more node, [x], that no arc touches. *)
Definition chain_with_isolated_node : Data := {|
  N := ["s"; "a"; "t"; "x"];
  A := A chain;
  s := s chain;
  t := t chain;
  c := c chain
|}.

End MaxFlow.


(** * Facts about the components *)

Lemma num_leb_le (a b : num) : num_leb a b = true <-> num_le a b.
Proof.
  destruct a, b; simpl; try apply Qle_bool_iff; intuition discriminate.
Qed.

Lemma satisfiesb_spec {V} (x : assignment V) (r : relation V) :
  satisfiesb x r = true <-> satisfies x r.
Proof.
  destruct r; unfold satisfiesb, satisfies.
  - rewrite andb_true_iff, !num_leb_le. reflexivity.
  - apply num_leb_le.
  - apply Qeq_bool_iff.
Qed.

Lemma is_feasibleb_spec {V} (m : Model V) (x : assignment V) :
  is_feasibleb m x = true <-> is_feasible m x.
Proof.
  unfold is_feasibleb, is_feasible.
  rewrite andb_true_iff, !forallb_forall.
  split; intros [Hd Hc]; split; auto; intros r Hr; apply satisfiesb_spec; auto.
Qed.

Lemma contains_nonneg (d : domain) (q : Q) :
  contains d q = true -> 0 <= q.
Proof.
  destruct d; unfold contains; simpl.
  - intros H. apply negb_true_iff in H.
    destruct (Qlt_le_dec 0 q) as [Hlt | Hle]; [apply Qlt_le_weak, Hlt |].
    apply Qle_bool_iff in Hle. congruence.
  - apply Qle_bool_iff.
  - intros H. apply andb_true_iff in H as [H _]. apply Qle_bool_iff, H.
Qed.

Lemma bind_Ok {A B} (r : result A) (k : A -> result B) (b : B) :
  (r ≫= k) = Ok b -> exists a, r = Ok a /\ k a = Ok b.
Proof. destruct r as [a | e]; simpl; [eauto | discriminate]. Qed.

Tactic Notation "inv_bind" hyp(H) "as" ident(v) ident(Hv) :=
  apply bind_Ok in H as (v & Hv & H).

Section Monad.
Context {A B : Type}.

Lemma for_each_Ok (f : A -> result B) (l : list A) (bs : list B) :
  for_each f l = Ok bs -> Forall2 (fun a b => f a = Ok b) l bs.
Proof.
  revert bs. induction l as [| a l IH]; simpl; intros bs H.
  - injection H as <-. constructor.
  - inv_bind H as b Hb.
    destruct (for_each f l) as [bs' | e]; simpl in H; [| discriminate].
    injection H as <-. constructor; auto.
Qed.

(** A generator whose condition and body never raise is a filter
    followed by a map. *)
Lemma comprehension_pure (g : A -> B) (p : A -> bool)
    (body : A -> result B) (cond : A -> result bool) (l : list A) :
  (forall a, In a l -> cond a = Ok (p a)) ->
  (forall a, In a l -> body a = Ok (g a)) ->
  comprehension body cond l = Ok (map g (List.filter p l)).
Proof.
  induction l as [| a l IH]; simpl; intros Hc Hb; [reflexivity |].
  rewrite Hc by auto. simpl.
  rewrite IH by auto.
  destruct (p a); simpl; [rewrite Hb by auto |]; reflexivity.
Qed.
End Monad.

Section ConstraintFacts.
Context {I V : Type}.
Implicit Types (rule : I -> result (rule_result V)).

(** Every index of a constructed constraint either was skipped or has
    the instance that the rule returned for it; no index yields a Python
    bool. *)
Lemma Constraint_index rule (index : list I) cs k :
  Constraint index rule = Ok cs -> In k index ->
  rule k = Ok Skip \/ exists rel, rule k = Ok (Rel rel) /\ In (k, rel) cs.
Proof.
  revert cs. induction index as [| k' index IH]; simpl; intros cs H Hk.
  - contradiction.
  - inv_bind H as r Hr. destruct r as [| b | rel].
    + destruct Hk as [-> | Hk]; [left; assumption | eauto].
    + discriminate.
    + inv_bind H as cs' Hcs. injection H as <-.
      destruct Hk as [-> | Hk].
      * right. exists rel. split; [assumption | left; reflexivity].
      * destruct (IH _ Hcs Hk) as [Hs | (rel' & Hr' & Hin)]; [left; exact Hs |].
        right. exists rel'. split; [assumption | right; assumption].
Qed.

(** Conversely, every instance stems from an index for which the rule
    returned a relational expression. *)
Lemma Constraint_instance rule (index : list I) cs k rel :
  Constraint index rule = Ok cs -> In (k, rel) cs ->
  In k index /\ rule k = Ok (Rel rel).
Proof.
  revert cs. induction index as [| k' index IH]; simpl; intros cs H Hin.
  - injection H as <-. contradiction.
  - inv_bind H as r Hr. destruct r as [| b | rel'].
    + destruct (IH _ H Hin). auto.
    + discriminate.
    + inv_bind H as cs' Hcs. injection H as <-.
      destruct Hin as [Heq | Hin].
      * injection Heq as -> ->. auto.
      * destruct (IH _ Hcs Hin). auto.
Qed.
End ConstraintFacts.

Lemma construct_set_Ok {A} `{EqDecision A} (w : A -> bool) (l l' : list A) :
  construct_set w l = Ok l' -> l' = l /\ NoDup l.
Proof.
  unfold construct_set. intros H.
  destruct (bool_decide (NoDup l)) eqn:Hnd; simpl in H; [| discriminate].
  apply bool_decide_eq_true in Hnd.
  destruct (forallb w l); [| discriminate].
  injection H as <-. auto.
Qed.

Lemma Objective_Ok {V} (rule : result (expr V)) (kw : option sense) p :
  Objective rule kw = Ok p ->
  exists e, rule = Ok e /\ p = (default minimize kw, e).
Proof.
  unfold Objective. intros H. inv_bind H as e He. injection H as <-. eauto.
Qed.

(** Reading a parameter raises nothing but a missing-data error. *)
Lemma param_value_raises {A} (p : Param A) (provided : option A) e :
  param_value p provided = Raise e -> e = MissingDataError.
Proof.
  unfold param_value. destruct provided; [discriminate |].
  destruct (default_value p); [discriminate |]. congruence.
Qed.

Lemma eval_pysum {V} (x : assignment V) (ts : list (term V)) :
  eval x (pysum ts) = eval_terms x ts.
Proof. destruct ts; reflexivity. Qed.

Lemma eval_terms_zero {V} (x : assignment V) (ts : list (term V)) :
  Forall (fun t => fst t == 0) ts -> eval_terms x ts == 0.
Proof.
  induction 1 as [| [q v] ts Hq _ IH]; simpl in *; [reflexivity |].
  rewrite Hq, IH. ring.
Qed.

(** * The diet model *)

Section DietFacts.
Import Diet.

Lemma create_instance_Ok data inst :
  create_instance data = Ok inst ->
  NoDup (F data) /\ NoDup (N data) /\
  x inst = F data /\
  (exists e, cost_rule data = Ok e /\ cost inst = (minimize, e)) /\
  Constraint (N data) (nutrient_rule data) = Ok (nutrient_limit inst) /\
  Constraint [tt] (fun _ => volume_rule data) = Ok (volume inst).
Proof.
  unfold create_instance. intros H.
  inv_bind H as f Hf. apply construct_set_Ok in Hf as [-> HF].
  inv_bind H as n Hn. apply construct_set_Ok in Hn as [-> HN].
  inv_bind H as p1 H1. inv_bind H as p2 H2. inv_bind H as p3 H3.
  inv_bind H as p4 H4. inv_bind H as p5 H5. inv_bind H as p6 H6.
  inv_bind H as obj Hobj. apply Objective_Ok in Hobj as (e & He & ->).
  inv_bind H as nl Hnl. inv_bind H as vol Hvol. injection H as <-. simpl.
  repeat split; eauto.
Qed.

Lemma cost_rule_Ok data e :
  cost_rule data = Ok e -> forall x, eval x e = total_cost data x.
Proof.
  unfold cost_rule, total_cost. intros H x.
  inv_bind H as ts Hts. injection H as <-. rewrite eval_pysum.
  apply for_each_Ok in Hts.
  induction Hts as [| i t l ts Hi _ IH]; simpl; [reflexivity |].
  unfold param_value in Hi; simpl in Hi.
  destruct (c data !! i) as [ci |]; simpl in Hi; [| discriminate].
  injection Hi as <-. rewrite IH. reflexivity.
Qed.

Lemma nutrient_rule_Ok data j r :
  nutrient_rule data j = Ok r ->
  exists ts lo hi,
    Forall2 (fun i t => exists q, a data !! (i, j) = Some q /\ t = (q, i))
            (F data) ts /\
    param_value Nmin_decl (Nmin data !! j) = Ok lo /\
    param_value Nmax_decl (Nmax data !! j) = Ok hi /\
    r = Rel (Ranged lo (pysum ts) hi).
Proof.
  unfold nutrient_rule, inequality. intros H.
  inv_bind H as ts Hts. inv_bind H as lo Hlo. inv_bind H as hi Hhi.
  injection H as <-.
  exists ts, lo, hi. repeat split; auto.
  apply for_each_Ok in Hts.
  eapply Forall2_impl; [exact Hts |]. simpl. intros i t Hi.
  unfold param_value in Hi; simpl in Hi.
  destruct (a data !! (i, j)) as [q |]; simpl in Hi; [| discriminate].
  injection Hi as <-. eauto.
Qed.

(** [nutrient_rule] compares nothing: it either lacks data or returns
    the ranged expression. *)
Lemma nutrient_rule_raises data j e :
  nutrient_rule data j = Raise e -> e = MissingDataError.
Proof.
  unfold nutrient_rule. intros H.
  destruct (for_each _ (F data)) as [ts | e'] eqn:Hts; simpl in H.
  - destruct (param_value Nmin_decl _) as [lo | e1] eqn:Hlo; simpl in H;
      [| injection H as <-; eapply param_value_raises; eauto].
    destruct (param_value Nmax_decl _) as [hi | e2] eqn:Hhi; simpl in H;
      [discriminate | injection H as <-; eapply param_value_raises; eauto].
  - injection H as <-. clear -Hts.
    induction (F data) as [| i l IH]; simpl in Hts; [discriminate |].
    destruct (param_value a_decl (a data !! (i, j))) as [q | e1] eqn:Hq;
      simpl in Hts; [| injection Hts as <-; eapply param_value_raises; eauto].
    destruct (for_each _ l) as [bs | e2]; simpl in Hts; [discriminate |].
    injection Hts as <-. apply IH. reflexivity.
Qed.

(** C2. With two foods of 500 calories each, at cost 1.0 and 2.0, and
    at least 1000 calories required with no upper limit, minimizing the
    cost under the nutrient constraint over the declared variable
    domain has exactly one optimal assignment, two servings of A and
    none of B, and its cost is 2.0. *)
Theorem two_foods_unique_optimum :
  exists m,
    cost_and_nutrients two_foods = Ok m /\
    obj_sense m = minimize /\
    is_optimal m two_of_A /\
    (forall x, is_optimal m x -> x "A" == 2 /\ x "B" == 0) /\
    (forall x, is_optimal m x -> value_of m x == 2.0).
Proof.
  eexists. split; [vm_compute; reflexivity |].
  split; [reflexivity |].
  assert (Hfeas : forall x : assignment string,
    is_feasible
      (mkModel ["A"; "B"] NonNegativeIntegers minimize
         (Linear [(1.0, "A"); (2.0, "B")])
         [Ranged (Fin 1000) (Linear [(500, "A"); (500, "B")]) PInf]) x ->
    0 <= x "A" /\ 0 <= x "B" /\ 1000 <= 500 * x "A" + (500 * x "B" + 0)).
  { intros x [Hd Hc].
    pose proof (contains_nonneg _ _ (Hd "A" (or_introl eq_refl))).
    pose proof (contains_nonneg _ _ (Hd "B" (or_intror (or_introl eq_refl)))).
    destruct (Hc _ (or_introl eq_refl)) as [Hlo _]. simpl in Hlo. auto. }
  assert (Hbest : is_optimal
      (mkModel ["A"; "B"] NonNegativeIntegers minimize
         (Linear [(1.0, "A"); (2.0, "B")])
         [Ranged (Fin 1000) (Linear [(500, "A"); (500, "B")]) PInf])
      two_of_A).
  { split; [apply is_feasibleb_spec; vm_compute; reflexivity |].
    intros y Hy. apply Hfeas in Hy as (HA & HB & Hcal).
    unfold value_of, two_of_A; simpl. lra. }
  assert (Huniq : forall x, is_optimal
      (mkModel ["A"; "B"] NonNegativeIntegers minimize
         (Linear [(1.0, "A"); (2.0, "B")])
         [Ranged (Fin 1000) (Linear [(500, "A"); (500, "B")]) PInf]) x ->
      x "A" == 2 /\ x "B" == 0).
  { intros x [Hx Hmin].
    apply Hfeas in Hx as (HA & HB & Hcal).
    specialize (Hmin two_of_A (proj1 Hbest)).
    unfold value_of, two_of_A in Hmin; simpl in Hmin.
    split; lra. }
  split; [exact Hbest |]. split; [exact Huniq |].
  intros x Hx. destruct (Huniq x Hx) as [HA HB].
  unfold value_of; simpl. lra.
Qed.

(** The data of the two foods name no volume: the whole model does not
    instantiate from them.  With a volume per food and a volume limit
    that two servings respect, the whole model has the same optimum. *)
Lemma two_foods_whole_model :
  create_instance two_foods = Raise MissingDataError /\
  exists inst,
    create_instance two_foods_with_volume = Ok inst /\
    is_optimal (to_model inst) two_of_A /\
    (forall x, is_optimal (to_model inst) x -> x "A" == 2 /\ x "B" == 0).
Proof.
  split; [vm_compute; reflexivity |].
  eexists. split; [vm_compute; reflexivity |].
  match goal with |- is_optimal ?m _ /\ _ =>
    assert (Hfeas : forall x : assignment string, is_feasible m x ->
      0 <= x "A" /\ 0 <= x "B" /\ 1000 <= 500 * x "A" + (500 * x "B" + 0))
  end.
  { intros x [Hd Hc].
    pose proof (contains_nonneg _ _ (Hd "A" (or_introl eq_refl))).
    pose proof (contains_nonneg _ _ (Hd "B" (or_intror (or_introl eq_refl)))).
    destruct (Hc _ (or_introl eq_refl)) as [Hlo _]. simpl in Hlo. auto. }
  match goal with |- is_optimal ?m _ /\ _ =>
    assert (Hbest : is_optimal m two_of_A)
  end.
  { split; [apply is_feasibleb_spec; vm_compute; reflexivity |].
    intros y Hy. apply Hfeas in Hy as (HA & HB & Hcal).
    unfold value_of, two_of_A; simpl. lra. }
  split; [exact Hbest |].
  intros x [Hx Hmin]. apply Hfeas in Hx as (HA & HB & Hcal).
  specialize (Hmin two_of_A (proj1 Hbest)).
  unfold value_of, two_of_A in Hmin; simpl in Hmin.
  split; lra.
Qed.

(** The assignment that the solver report of the notebook lists lies in
    the declared domain, satisfies every constraint of the instance of
    [diet.dat] exactly, and costs 15.05. *)
Lemma diet_report_is_feasible :
  exists inst,
    create_instance diet_dat = Ok inst /\
    is_feasible (to_model inst) results_yml /\
    value_of (to_model inst) results_yml == 15.05.
Proof.
  eexists. split; [vm_compute; reflexivity |].
  split; [apply is_feasibleb_spec |]; vm_compute; reflexivity.
Qed.

(** C9. The objective of the diet model is declared without a sense and
    is a minimization: every instance has the sense [minimize], its
    objective is the total cost [sum_i c_i * x_i], and an assignment
    that a solve reports as optimal costs no more than any feasible
    assignment. *)
Theorem diet_cost_is_minimized data inst :
  create_instance data = Ok inst ->
  obj_sense (to_model inst) = minimize /\
  (forall x, value_of (to_model inst) x = total_cost data x) /\
  (forall x v, solved (to_model inst) (optimal x v) ->
     v == total_cost data x /\
     forall y, is_feasible (to_model inst) y ->
               total_cost data x <= total_cost data y).
Proof.
  intros H. apply create_instance_Ok in H
    as (_ & _ & _ & (e & He & Hcost) & _ & _).
  assert (Hval : forall x, value_of (to_model inst) x = total_cost data x).
  { intros x. unfold value_of, to_model; simpl. rewrite Hcost; simpl.
    apply cost_rule_Ok, He. }
  assert (Hsense : obj_sense (to_model inst) = minimize).
  { unfold to_model; simpl. rewrite Hcost. reflexivity. }
  repeat split; auto.
  - destruct H as [_ ->]. rewrite Hval. reflexivity.
  - intros y Hy. destruct H as [[_ Hbest] _].
    specialize (Hbest y Hy). rewrite Hsense, !Hval in Hbest. exact Hbest.
Qed.

Lemma diet_cost_is_minimized_witness :
  exists inst,
    create_instance diet_dat = Ok inst /\
    obj_sense (to_model inst) = minimize /\
    value_of (to_model inst) results_yml == 15.05.
Proof.
  destruct (create_instance diet_dat) as [inst | e] eqn:E.
  - exists inst. split; [reflexivity |].
    destruct (diet_cost_is_minimized diet_dat inst E) as (Hs & Hv & _).
    split; [exact Hs |]. rewrite Hv. vm_compute. reflexivity.
  - vm_compute in E. discriminate E.
Defined.

(** The instance that [nutrient_rule] returns for a nutrient of an
    instantiated model is one of the constraints handed to the solver. *)
Lemma nutrient_instance data inst j :
  create_instance data = Ok inst -> In j (N data) ->
  exists ts lo hi,
    Forall2 (fun i t => exists q, a data !! (i, j) = Some q /\ t = (q, i))
            (F data) ts /\
    param_value Nmin_decl (Nmin data !! j) = Ok lo /\
    param_value Nmax_decl (Nmax data !! j) = Ok hi /\
    nutrient_rule data j = Ok (Rel (Ranged lo (pysum ts) hi)) /\
    In (j, Ranged lo (pysum ts) hi) (nutrient_limit inst) /\
    In (Ranged lo (pysum ts) hi) (constraints (to_model inst)).
Proof.
  intros H Hj. apply create_instance_Ok in H as (_ & _ & _ & _ & Hnl & _).
  destruct (Constraint_index _ _ _ _ Hnl Hj) as [Hs | (rel & Hr & Hin)].
  - apply nutrient_rule_Ok in Hs as (? & ? & ? & _ & _ & _ & ?). discriminate.
  - pose proof Hr as Hr'.
    apply nutrient_rule_Ok in Hr' as (ts & lo & hi & Hts & Hlo & Hhi & Heq).
    injection Heq as ->.
    exists ts, lo, hi. repeat split; auto.
    unfold to_model; simpl. apply in_or_app. left.
    apply (in_map snd) in Hin. exact Hin.
Qed.

Lemma nutrient_limit_raises data (index : list string) e :
  Constraint index (nutrient_rule data) = Raise e -> e = MissingDataError.
Proof.
  induction index as [| k index IH]; simpl; [discriminate |].
  destruct (nutrient_rule data k) as [r | e'] eqn:Hr; simpl.
  - apply nutrient_rule_Ok in Hr as (ts & lo & hi & _ & _ & _ & ->).
    destruct (Constraint index (nutrient_rule data)); simpl;
      [discriminate | intros [= <-]; apply IH; reflexivity].
  - intros [= <-]. eapply nutrient_rule_raises, Hr.
Qed.

(** A model without a feasible assignment has one verdict. *)
Lemma infeasible_verdict {V} (m : Model V) :
  (forall x, ~ is_feasible m x) ->
  solved m infeasible /\ forall o, solved m o -> o = infeasible.
Proof.
  intros Hno. split; [exact Hno |].
  intros [x v | x v | | |]; simpl.
  - intros [[Hx _] _]. destruct (Hno x Hx).
  - intros [Hx _]. destruct (Hno x Hx).
  - reflexivity.
  - intros Hub. destruct (Hub 0) as (x & Hx & _). destruct (Hno x Hx).
  - contradiction.
Qed.

(** C6. In a diet model that instantiates, if some nutrient has a
    strictly positive minimum while every food supplies none of it, no
    assignment is feasible: the solve yields the outcome [infeasible],
    a value of [SolveOutcome] and the only verdict possible, and that
    outcome carries no assignment. *)
Theorem no_supply_is_infeasible data inst j lo :
  create_instance data = Ok inst ->
  In j (N data) ->
  param_value Nmin_decl (Nmin data !! j) = Ok lo ->
  num_lt (Fin 0) lo ->
  (forall i q, In i (F data) -> a data !! (i, j) = Some q -> q == 0) ->
  solved (to_model inst) infeasible /\
  (forall o, solved (to_model inst) o ->
             o = infeasible /\ assignment_of o = None).
Proof.
  intros H Hj Hlo Hpos Hzero.
  destruct (nutrient_instance _ _ _ H Hj)
    as (ts & lo' & hi & Hts & Hlo' & _ & _ & _ & Hin).
  assert (lo' = lo) as -> by congruence.
  assert (Hnone : forall x, ~ is_feasible (to_model inst) x).
  { intros x [_ Hc]. destruct (Hc _ Hin) as [Hlow _].
    rewrite eval_pysum in Hlow.
    assert (Hz : eval_terms x ts == 0).
    { apply eval_terms_zero. clear -Hts Hzero.
      induction Hts as [| i t l ts' (q & Hq & ->) _ IH]; constructor.
      - simpl. eapply Hzero; [left; reflexivity | exact Hq].
      - apply IH. intros i' q' Hi'. apply Hzero. right. exact Hi'. }
    destruct lo as [l |]; simpl in Hlow, Hpos; [lra | exact Hlow]. }
  destruct (infeasible_verdict _ Hnone) as [Hinf Honly].
  split; [exact Hinf |].
  intros o Ho. rewrite (Honly o Ho). split; reflexivity.
Qed.

Lemma no_supply_is_infeasible_witness :
  exists inst,
    create_instance no_calories = Ok inst /\
    solved (to_model inst) infeasible.
Proof.
  destruct (create_instance no_calories) as [inst | e] eqn:E.
  - exists inst. split; [reflexivity |].
    apply (no_supply_is_infeasible no_calories inst "Cal" (Fin 1000) E).
    + simpl. auto.
    + vm_compute. reflexivity.
    + reflexivity.
    + intros i q [<- | [<- | []]] Hq; vm_compute in Hq;
        injection Hq as <-; reflexivity.
  - vm_compute in E. discriminate E.
Defined.




End DietFacts.

(** * The maximum-flow model *)

Section MaxFlowFacts.
Import MaxFlow.

Lemma arc_eqb_eq (u v : arc) : arc_eqb u v = true <-> u = v.
Proof.
  destruct u as [u1 u2], v as [v1 v2]. unfold arc_eqb; simpl.
  rewrite andb_true_iff, !String.eqb_eq. split.
  - intros [-> ->]. reflexivity.
  - intros [= -> ->]. auto.
Qed.

Lemma create_instance_Ok' data inst :
  create_instance data = Ok inst ->
  NoDup (N data) /\ NoDup (A data) /\
  flows inst = A data /\
  (exists e, total_rule data = Ok e /\ total inst = (maximize, e)) /\
  Constraint (A data) (fun '(i, j) => limit_rule data i j) = Ok (limit inst) /\
  Constraint (N data) (flow_rule data) = Ok (flow inst).
Proof.
  unfold create_instance. intros H.
  inv_bind H as n Hn. apply construct_set_Ok in Hn as [-> HN].
  inv_bind H as arcs Ha. apply construct_set_Ok in Ha as [-> HA].
  inv_bind H as p1 H1. inv_bind H as p2 H2. inv_bind H as p3 H3.
  inv_bind H as obj Hobj. apply Objective_Ok in Hobj as (e & He & ->).
  inv_bind H as lim Hlim. inv_bind H as fl Hfl. injection H as <-. simpl.
  repeat split; eauto.
Qed.

Lemma total_rule_Ok data tv :
  t data = Some tv ->
  total_rule data = Ok (pysum (map f (List.filter (into tv) (A data)))).
Proof.
  intros Ht. unfold total_rule.
  rewrite (comprehension_pure f (into tv)); [reflexivity | |].
  - intros [i j] _. unfold value_t, param_value. rewrite Ht. reflexivity.
  - reflexivity.
Qed.

(** What [flow_rule] computes at a node that is neither the source nor
    the sink. *)
Lemma flow_rule_inner data sv tv k :
  s data = Some sv -> t data = Some tv -> k <> sv -> k <> tv ->
  flow_rule data k =
    Ok (py_eq (pysum (map f (List.filter (into k) (A data))))
              (pysum (map f (List.filter (out_of k) (A data))))).
Proof.
  intros Hs Ht Hks Hkt. unfold flow_rule, value_s, value_t, param_value.
  rewrite Hs, Ht; simpl.
  apply String.eqb_neq in Hks, Hkt. rewrite Hks; simpl. rewrite Hkt.
  rewrite (comprehension_pure f (into k) (fun ij => Ok (f ij))
             (fun '(i, j) => Ok (String.eqb j k)));
    [| intros [i j] _; reflexivity | reflexivity].
  simpl.
  rewrite (comprehension_pure f (out_of k) (fun ij => Ok (f ij))
             (fun '(i, j) => Ok (String.eqb i k)));
    [| intros [i j] _; reflexivity | reflexivity].
  reflexivity.
Qed.

Lemma py_eq_not_Skip {V} (l r : expr V) : py_eq l r <> Skip.
Proof. destruct l, r; discriminate. Qed.

(** The flow-balance rule skips exactly the source and the sink. *)
Lemma flow_rule_skip_iff data sv tv k :
  s data = Some sv -> t data = Some tv ->
  flow_rule data k = Ok Skip <-> k = sv \/ k = tv.
Proof.
  intros Hs Ht. split.
  - intros H.
    destruct (String.eqb_spec k sv) as [-> | Hks]; [auto |].
    destruct (String.eqb_spec k tv) as [-> | Hkt]; [auto |].
    rewrite (flow_rule_inner _ _ _ _ Hs Ht Hks Hkt) in H.
    injection H as H. destruct (py_eq_not_Skip _ _ H).
  - intros Hk. unfold flow_rule, value_s, value_t, param_value.
    rewrite Hs, Ht; simpl.
    destruct (String.eqb_spec k sv) as [-> | Hks]; [reflexivity |].
    destruct Hk as [-> | ->]; [contradiction |].
    simpl. rewrite String.eqb_refl. reflexivity.
Qed.

(** At an inner node that some arc touches, the rule returns the
    balance of the flows in and out. *)
Lemma flow_rule_balance data sv tv k ij :
  s data = Some sv -> t data = Some tv -> k <> sv -> k <> tv ->
  In ij (A data) -> into k ij = true \/ out_of k ij = true ->
  flow_rule data k =
    Ok (Rel (Equal (pysum (map f (List.filter (into k) (A data))))
                   (pysum (map f (List.filter (out_of k) (A data)))))).
Proof.
  intros Hs Ht Hks Hkt Hin Htouch.
  rewrite (flow_rule_inner _ _ _ _ Hs Ht Hks Hkt). f_equal.
  destruct Htouch as [Hi | Ho].
  - assert (Hne : In ij (List.filter (into k) (A data)))
      by (apply filter_In; auto).
    destruct (List.filter (into k) (A data)); [destruct Hne | reflexivity].
  - assert (Hne : In ij (List.filter (out_of k) (A data)))
      by (apply filter_In; auto).
    destruct (List.filter (out_of k) (A data)); [destruct Hne |].
    simpl. destruct (pysum _); reflexivity.
Qed.

(** No instance of the flow constraint exists for the source or the
    sink of an instantiated model. *)
Lemma no_balance_at_the_ends data inst sv tv k rel :
  create_instance data = Ok inst ->
  s data = Some sv -> t data = Some tv ->
  In (k, rel) (flow inst) -> k <> sv /\ k <> tv.
Proof.
  intros H Hs Ht Hin.
  apply create_instance_Ok' in H as (_ & _ & _ & _ & _ & Hfl).
  destruct (Constraint_instance _ _ _ _ _ Hfl Hin) as [_ Hrule].
  split; intros ->.
  - rewrite (proj2 (flow_rule_skip_iff _ _ _ _ Hs Ht)) in Hrule by auto.
    discriminate.
  - rewrite (proj2 (flow_rule_skip_iff _ _ _ _ Hs Ht)) in Hrule by auto.
    discriminate.
Qed.

Lemma coefficient_in_flows (p : arc -> bool) (l : list arc) (v : arc) :
  NoDup l ->
  coefficient_in (map f (List.filter p l)) v =
    if bool_decide (v ∈ l) && p v then 1 else 0.
Proof.
  induction 1 as [| u l Hu Hl IH]; [reflexivity |].
  cbn [List.filter].
  destruct (decide (u = v)) as [-> | Hne].
  - rewrite (bool_decide_eq_true_2 (v ∈ v :: l)) by left.
    rewrite (bool_decide_eq_false_2 (v ∈ l)) in IH by assumption.
    destruct (p v); simpl in *; [| exact IH].
    rewrite (proj2 (arc_eqb_eq v v) eq_refl), IH. reflexivity.
  - assert (Hb : bool_decide (v ∈ u :: l) = bool_decide (v ∈ l)).
    { apply bool_decide_ext. rewrite elem_of_cons. split; [| auto].
      intros [Heq | Hin]; [symmetry in Heq; contradiction | assumption]. }
    rewrite Hb, <- IH.
    destruct (p u); simpl; [| reflexivity].
    destruct (arc_eqb u v) eqn:E; [| reflexivity].
    apply arc_eqb_eq in E. contradiction.
Qed.

(** C3. On the chain s -> a -> t with capacities 10 and 4, the model
    instantiates, the maximal flow into the sink is 4, and the flow
    constraint has an instance for node a only: the rule skips s and t. *)
Theorem chain_bottleneck :
  exists inst,
    create_instance chain = Ok inst /\
    fst (total inst) = maximize /\
    is_optimal (to_model inst) four_through /\
    (forall x, is_optimal (to_model inst) x ->
               value_of (to_model inst) x == 4) /\
    flow_rule chain "s" = Ok Skip /\
    flow_rule chain "t" = Ok Skip /\
    flow inst =
      [("a", Equal (Linear [f ("s", "a")]) (Linear [f ("a", "t")]))] /\
    limit inst =
      [(("s", "a"), LessEq (Linear [f ("s", "a")]) (Fin 10));
       (("a", "t"), LessEq (Linear [f ("a", "t")]) (Fin 4))].
Proof.
  eexists. split; [vm_compute; reflexivity |].
  split; [reflexivity |].
  match goal with |- is_optimal ?m _ /\ _ =>
    assert (Hcap : forall y, is_feasible m y -> value_of m y <= 4)
  end.
  { intros y [_ Hc].
    pose proof (Hc _ (or_intror (or_introl eq_refl))) as Hat.
    unfold value_of; simpl in *. lra. }
  match goal with |- is_optimal ?m _ /\ _ =>
    assert (Hbest : is_optimal m four_through)
  end.
  { split; [apply is_feasibleb_spec; vm_compute; reflexivity |].
    intros y Hy. apply Hcap in Hy. unfold value_of in *; simpl in *.
    unfold four_through. lra. }
  split; [exact Hbest |].
  split.
  { intros x [Hx Hmax]. apply Hcap in Hx.
    specialize (Hmax four_through (proj1 Hbest)).
    unfold value_of, four_through in *; simpl in *. lra. }
  repeat split; vm_compute; reflexivity.
Qed.

(** C4.  The rule skips exactly the source and the sink, but it does not
    return the balance equation at every other node.  At a node that no
    arc touches both sums are Python's integer 0, the comparison
    [0 == 0] is the Python bool [True], and the construction of the
    constraint aborts. *)
Theorem flow_rule_at_isolated_node :
  value_s chain_with_isolated_node = Ok "s" /\
  value_t chain_with_isolated_node = Ok "t" /\
  In "x" (N chain_with_isolated_node) /\
  flow_rule chain_with_isolated_node "x" = Ok (PyBool true) /\
  (forall lhs rhs,
     flow_rule chain_with_isolated_node "x" <> Ok (Rel (Equal lhs rhs))) /\
  create_instance chain_with_isolated_node = Raise ModelDefinitionError.
Proof.
  assert (Hx : flow_rule chain_with_isolated_node "x" = Ok (PyBool true))
    by (vm_compute; reflexivity).
  repeat split; try (vm_compute; reflexivity).
  - simpl. auto 6.
  - intros lhs rhs. rewrite Hx. discriminate.
Qed.

(** C10. In every instance of the max-flow model the objective built by
    [total_rule] is maximized and has coefficient exactly 1 on the flow
    of each arc into the sink and 0 on every other variable: it is the
    plain sum of the flows into the sink.  On the data of the notebook
    its optimum is 14 = 8 + 6, reached by the reported assignment,
    whereas the objective of the problem statement weighs the flow on
    the arc (D, Home) with its capacity 8 and would be 100 there. *)
Theorem total_is_the_flow_into_the_sink data inst tv :
  create_instance data = Ok inst ->
  t data = Some tv ->
  fst (total inst) = maximize /\
  (forall i j,
     coefficient (snd (total inst)) (i, j) =
       if bool_decide ((i, j) ∈ A data) && String.eqb j tv then 1 else 0) /\
  (exists zoo,
     create_instance maxflow_dat = Ok zoo /\
     is_optimal (to_model zoo) results_yml /\
     value_of (to_model zoo) results_yml == 14 /\
     (forall x, is_optimal (to_model zoo) x ->
                value_of (to_model zoo) x == 8 + 6) /\
     coefficient (snd (total zoo)) ("D", "Home") = 1 /\
     coefficient_in (stated_objective maxflow_dat "Home") ("D", "Home") == 8 /\
     eval_terms results_yml (stated_objective maxflow_dat "Home") == 100).
Proof.
  intros H Ht.
  apply create_instance_Ok' in H as (_ & HA & _ & (e & He & Htot) & _ & _).
  rewrite (total_rule_Ok _ _ Ht) in He. injection He as <-.
  rewrite Htot; simpl.
  split; [reflexivity |]. split.
  { intros i j.
    pose proof (coefficient_in_flows (into tv) (A data) (i, j) HA) as Hc.
    unfold into in Hc at 2; simpl in Hc. rewrite <- Hc.
    destruct (List.filter (into tv) (A data)); reflexivity. }
  eexists. split; [vm_compute; reflexivity |].
  match goal with |- is_optimal ?m _ /\ _ =>
    assert (Hcap : forall y, is_feasible m y -> value_of m y <= 14)
  end.
  { intros y [_ Hc].
    assert (HD : satisfies y (LessEq (Linear [f ("D", "Home")]) (Fin 8))).
    { apply Hc. simpl. repeat (first [left; reflexivity | right]). }
    assert (HE : satisfies y (LessEq (Linear [f ("E", "Home")]) (Fin 6))).
    { apply Hc. simpl. repeat (first [left; reflexivity | right]). }
    simpl in HD, HE.
    unfold value_of; simpl. lra. }
  match goal with |- is_optimal ?m _ /\ _ =>
    assert (Hval : value_of m results_yml == 14)
      by (vm_compute; reflexivity);
    assert (Hbest : is_optimal m results_yml)
  end.
  { split; [apply is_feasibleb_spec; vm_compute; reflexivity |].
    intros y Hy. apply Hcap in Hy. simpl. rewrite Hval. exact Hy. }
  split; [exact Hbest |]. split; [exact Hval |].
  split.
  { intros x [Hx Hmax]. apply Hcap in Hx.
    specialize (Hmax results_yml (proj1 Hbest)). simpl in Hmax.
    rewrite Hval in Hmax. lra. }
  repeat split; vm_compute; reflexivity.
Qed.

Lemma total_is_the_flow_into_the_sink_witness :
  exists inst,
    create_instance chain = Ok inst /\
    coefficient (snd (total inst)) ("a", "t") = 1 /\
    coefficient (snd (total inst)) ("s", "a") = 0.
Proof.
  destruct (create_instance chain) as [inst | e] eqn:E.
  - exists inst. split; [reflexivity |].
    destruct (total_is_the_flow_into_the_sink chain inst "t" E eq_refl)
      as (_ & Hc & _).
    split; rewrite Hc; vm_compute; reflexivity.
  - vm_compute in E. discriminate E.
Defined.

End MaxFlowFacts.

(** * Sums and domains *)

Section Sums.
Context {A : Type}.
Implicit Types (g h : A -> Q) (l : list A).

Lemma sum_over_ext g h l :
  (forall a, In a l -> g a == h a) -> sum_over g l == sum_over h l.
Proof.
  induction l as [| a l IH]; simpl; intros H; [reflexivity |].
  rewrite (H a) by auto. rewrite IH by auto. reflexivity.
Qed.

Lemma sum_over_plus g h l :
  sum_over (fun a => g a + h a) l == sum_over g l + sum_over h l.
Proof. induction l as [| a l IH]; simpl; [| rewrite IH]; ring. Qed.

Lemma sum_over_le g h l :
  (forall a, In a l -> g a <= h a) -> sum_over g l <= sum_over h l.
Proof.
  induction l as [| a l IH]; simpl; intros H; [apply Qle_refl |].
  apply Qplus_le_compat; auto.
Qed.

Lemma sum_over_const_zero l : sum_over (fun _ : A => 0) l == 0.
Proof. induction l as [| a l IH]; simpl; [| rewrite IH]; ring. Qed.

Lemma sum_over_nonneg g l :
  (forall a, In a l -> 0 <= g a) -> 0 <= sum_over g l.
Proof.
  intros H. rewrite <- (sum_over_const_zero l). apply sum_over_le, H.
Qed.

Lemma sum_over_filter g (p : A -> bool) l :
  sum_over g (List.filter p l) == sum_over (fun a => if p a then g a else 0) l.
Proof.
  induction l as [| a l IH]; simpl; [reflexivity |].
  destruct (p a); simpl; rewrite IH; ring.
Qed.

(** A sum in which exactly one element of a duplicate-free list counts. *)
Lemma sum_over_only (p : A -> bool) (v : Q) (a : A) l :
  NoDup l -> In a l -> (forall k, p k = true <-> k = a) ->
  sum_over (fun k => if p k then v else 0) l == v.
Proof.
  intros Hnd Ha Hp. induction Hnd as [| k l Hk Hnd IH]; [destruct Ha |].
  simpl. destruct Ha as [-> | Ha].
  - rewrite (proj2 (Hp a) eq_refl).
    rewrite (sum_over_ext _ (fun _ => 0)), sum_over_const_zero; [ring |].
    intros k Hin. destruct (p k) eqn:E; [| reflexivity].
    apply Hp in E as ->. destruct Hk. apply list_elem_of_In, Hin.
  - destruct (p k) eqn:E.
    + apply Hp in E as ->. destruct Hk. apply list_elem_of_In, Ha.
    + rewrite IH by assumption. ring.
Qed.
Lemma sum_over_Permutation g l l' :
  Permutation l l' -> sum_over g l == sum_over g l'.
Proof.
  induction 1 as [| a l l' _ IH | a b l | l l' l'' _ IH1 _ IH2]; simpl.
  - reflexivity.
  - rewrite IH. reflexivity.
  - ring.
  - rewrite IH1. exact IH2.
Qed.
End Sums.

Lemma num_le_Qeq_r (lo : num) (p q : Q) :
  p == q -> num_le lo (Fin p) -> num_le lo (Fin q).
Proof. intros E. destruct lo; simpl; [rewrite E |]; auto. Qed.

Lemma num_le_Qeq_l (hi : num) (p q : Q) :
  p == q -> num_le (Fin p) hi -> num_le (Fin q) hi.
Proof. intros E. destruct hi; simpl; [rewrite E |]; auto. Qed.

Lemma eval_terms_map {V} (x : assignment V) (l : list V) :
  eval_terms x (map (fun v => (1, v)) l) == sum_over x l.
Proof. induction l as [| v l IH]; simpl; [| rewrite IH]; ring. Qed.

Lemma Qle_bool_false (p q : Q) : Qle_bool p q = false <-> q < p.
Proof.
  split; intros H.
  - destruct (Qlt_le_dec q p) as [Hlt | Hle]; [exact Hlt |].
    apply Qle_bool_iff in Hle. congruence.
  - destruct (Qle_bool p q) eqn:E; [| reflexivity].
    apply Qle_bool_iff in E. apply Qle_not_lt in E. contradiction.
Qed.

Lemma PositiveReals_Q (q : Q) : contains PositiveReals q = true <-> 0 < q.
Proof.
  unfold contains; simpl. rewrite negb_true_iff. apply Qle_bool_false.
Qed.

Lemma NonNegativeReals_Q (q : Q) : contains NonNegativeReals q = true <-> 0 <= q.
Proof. unfold contains; simpl. apply Qle_bool_iff. Qed.

Lemma PositiveReals_num (n : num) :
  contains PositiveReals n = true <-> num_lt (Fin 0) n.
Proof.
  destruct n as [q |]; [apply PositiveReals_Q | simpl; tauto].
Qed.

Lemma NonNegativeReals_num (n : num) :
  contains NonNegativeReals n = true <-> num_le (Fin 0) n.
Proof.
  destruct n as [q |]; [apply NonNegativeReals_Q | simpl; tauto].
Qed.

(** The domain of the servings holds the non-negative integers and nothing
    else. *)
Lemma NonNegativeIntegers_servings (q : Q) :
  contains NonNegativeIntegers q = true <-> Diet.servings q.
Proof.
  unfold contains, Diet.servings, is_integer, to_num, Numeric_Q.
  rewrite andb_true_iff, Qle_bool_iff, Z.eqb_eq. split.
  - intros [Hq Hden]. split; [exact Hq |].
    exists (Qnum (Qred q)). rewrite <- (Qred_correct q) at 1.
    destruct (Qred q) as [n d]; simpl in *.
    injection Hden as ->. reflexivity.
  - intros [Hq [n Hn]]. split; [exact Hq |].
    rewrite (Qred_complete _ _ Hn), Qcanon.Qred_identity; [reflexivity |].
    apply Z.gcd_1_r.
Qed.

(** * Loading and constructing components *)

Lemma bind_Raise {A B} (r : result A) (k : A -> result B) e :
  (r ≫= k) = Raise e -> r = Raise e \/ exists a, r = Ok a /\ k a = Raise e.
Proof. destruct r as [a | e']; simpl; [eauto | intros [= ->]; auto]. Qed.

Lemma bind_Raise_same {A B} (r : result A) (k : A -> result B) e :
  (forall e', r = Raise e' -> e' = e) ->
  (forall a, r = Ok a -> k a = Raise e) ->
  (r ≫= k) = Raise e.
Proof.
  destruct r as [a | e']; simpl; intros He Hk; [auto | f_equal; auto].
Qed.

Lemma construct_set_within {A} `{EqDecision A} (w : A -> bool) (l l' : list A) :
  construct_set w l = Ok l' -> forall a, In a l -> w a = true.
Proof.
  unfold construct_set. intros H a Ha.
  destruct (bool_decide (NoDup l)); simpl in H; [| discriminate].
  destruct (forallb w l) eqn:E; [| discriminate].
  rewrite forallb_forall in E. auto.
Qed.

Lemma construct_set_raises {A} `{EqDecision A} (w : A -> bool) (l : list A) e :
  construct_set w l = Raise e -> e = DataValidationError.
Proof.
  unfold construct_set. destruct (_ && _); [discriminate | congruence].
Qed.

Lemma construct_set_outside {A} `{EqDecision A} (w : A -> bool) (l : list A) a :
  In a l -> w a = false -> construct_set w l = Raise DataValidationError.
Proof.
  intros Ha Hw. unfold construct_set.
  destruct (forallb w l) eqn:E.
  - rewrite forallb_forall in E. rewrite (E a Ha) in Hw. discriminate.
  - rewrite andb_false_r. reflexivity.
Qed.

Lemma construct_param_valid {K A} `{Countable K} (p : Param A)
    (index : list K) (data data' : gmap K A) :
  construct_param p index data = Ok data' ->
  forall k v, data !! k = Some v -> In k index /\ within p v = true.
Proof.
  unfold construct_param. intros H0 k v Hk.
  destruct (bool_decide _) eqn:E; [| discriminate].
  apply bool_decide_eq_true in E. destruct (E k v Hk) as [Hin Hw].
  split; [apply list_elem_of_In, Hin | exact Hw].
Qed.

Lemma construct_param_raises {K A} `{Countable K} (p : Param A)
    (index : list K) (data : gmap K A) e :
  construct_param p index data = Raise e -> e = DataValidationError.
Proof.
  unfold construct_param. destruct (bool_decide _); [discriminate | congruence].
Qed.

(** One provided value outside the declared domain, or at an index
    outside the index set, makes the load of the parameter fail. *)
Lemma construct_param_outside {K A} `{Countable K} (p : Param A)
    (index : list K) (data : gmap K A) k v :
  data !! k = Some v -> within p v = false \/ ~ In k index ->
  construct_param p index data = Raise DataValidationError.
Proof.
  intros Hk Hbad. unfold construct_param.
  destruct (bool_decide _) eqn:E; [| reflexivity].
  apply bool_decide_eq_true in E. destruct (E k v Hk) as [Hin Hw].
  destruct Hbad as [Hbad | Hbad]; [congruence |].
  destruct Hbad. apply list_elem_of_In, Hin.
Qed.

Section ConstraintShape.
Context {I V : Type}.
Implicit Types (rule : I -> result (rule_result V)).

(** The instances of a constructed constraint are indexed by the indices
    that the rule did not skip, in the order of the index set. *)
Lemma Constraint_indices rule (p : I -> bool) (index : list I) cs :
  Constraint index rule = Ok cs ->
  (forall k, In k index -> (rule k = Ok Skip <-> p k = false)) ->
  map fst cs = List.filter p index.
Proof.
  revert cs. induction index as [| k index IH]; simpl; intros cs H Hp.
  - injection H as <-. reflexivity.
  - inv_bind H as r Hr. destruct r as [| b | rel].
    + rewrite (proj1 (Hp k (or_introl eq_refl)) Hr). apply IH; auto.
    + discriminate.
    + inv_bind H as cs' Hcs. injection H as <-.
      destruct (p k) eqn:E.
      * simpl. f_equal. apply IH; auto.
      * apply (Hp k (or_introl eq_refl)) in E. congruence.
  Qed.

(** The construction raises a model-definition error only where the rule
    returns a Python bool or raises that error itself. *)
Lemma Constraint_definition_error rule (index : list I) :
  Constraint index rule = Raise ModelDefinitionError ->
  exists k, In k index /\
    ((exists b, rule k = Ok (PyBool b)) \/ rule k = Raise ModelDefinitionError).
Proof.
  induction index as [| k index IH]; simpl; [discriminate |].
  destruct (rule k) as [[| b | rel] | e] eqn:Hr; simpl.
  - intros H. destruct (IH H) as (k' & Hin & Hk'). eauto.
  - intros _. exists k. eauto.
  - destruct (Constraint index rule) as [cs | e] eqn:Hc; simpl;
      [discriminate |].
    intros [= ->]. destruct (IH eq_refl) as (k' & Hin & Hk'). eauto.
  - intros [= ->]. exists k. auto.
Qed.
End ConstraintShape.

Lemma eval_terms_table (look : string -> option Q) (x : assignment string)
    (l : list string) (ts : list (term string)) :
  Forall2 (fun i t => exists q, look i = Some q /\ t = (q, i)) l ts ->
  eval_terms x ts =
    sum_over (fun i => match look i with Some q => q * x i | None => 0 end) l.
Proof.
  induction 1 as [| i t l ts (q & Hq & ->) _ IH]; simpl; [reflexivity |].
  rewrite Hq, IH. reflexivity.
Qed.

Lemma Forall2_In_left {A B} (R : A -> B -> Prop) (l : list A) (k : list B) a :
  Forall2 R l k -> In a l -> exists b, In b k /\ R a b.
Proof.
  induction 1 as [| a' b l k Hab _ IH]; simpl; [contradiction |].
  intros [-> | Ha]; [eauto |]. destruct (IH Ha) as (b' & Hb' & HR). eauto.
Qed.

(** The generator [p[i] * x[i] for i in l] over a parameter without
    default yields one term per element, and needs a value for each. *)
Lemma for_each_term (decl : Param Q) (look : string -> option Q)
    (l : list string) (ts : list (term string)) :
  default_value decl = None ->
  for_each (fun i => q ← param_value decl (look i); Ok (q, i)) l = Ok ts ->
  Forall2 (fun i t => exists q, look i = Some q /\ t = (q, i)) l ts.
Proof.
  intros Hd H. apply for_each_Ok in H.
  eapply Forall2_impl; [exact H |]. simpl. intros i t Hi.
  unfold param_value in Hi. rewrite Hd in Hi.
  destruct (look i) as [q |]; simpl in Hi; [| discriminate].
  injection Hi as <-. eauto.
Qed.

Lemma filter_all {A} (l : list A) : List.filter (fun _ => true) l = l.
Proof. induction l as [| a l IH]; simpl; [| rewrite IH]; reflexivity. Qed.

Ltac load_step :=
  apply bind_Raise_same;
  [ intros ? ?;
    first [ eapply construct_set_raises; eassumption
          | eapply construct_param_raises; eassumption ]
  | intros ? ? ].

Ltac rejected decl Hq Hbad :=
  repeat first
    [ rewrite (construct_param_outside decl _ _ _ _ Hq (or_introl Hbad));
      reflexivity
    | load_step ].

(** * Instances of the diet model *)

Section DietInstances.
Import Diet.

Lemma cost_rule_terms data e :
  cost_rule data = Ok e ->
  exists ts,
    Forall2 (fun i t => exists q, c data !! i = Some q /\ t = (q, i))
            (F data) ts /\
    e = pysum ts.
Proof.
  unfold cost_rule. intros H. inv_bind H as ts Hts. injection H as <-.
  exists ts. split; [| reflexivity].
  apply (for_each_term c_decl (fun i => c data !! i)); [reflexivity | exact Hts].
Qed.

Lemma volume_rule_Ok data r :
  volume_rule data = Ok r ->
  exists ts vmax,
    Forall2 (fun i t => exists q, V data !! i = Some q /\ t = (q, i))
            (F data) ts /\
    Vmax data = Some vmax /\
    r = py_le (pysum ts) vmax.
Proof.
  unfold volume_rule. intros H.
  inv_bind H as ts Hts. inv_bind H as vmax Hv. injection H as <-.
  exists ts, vmax. split; [| split; [| reflexivity]].
  - apply (for_each_term V_decl (fun i => V data !! i));
      [reflexivity | exact Hts].
  - unfold param_value in Hv. destruct (Vmax data); simpl in Hv;
      [congruence | discriminate].
Qed.

(** The one instance of the volume constraint. *)
Lemma volume_instance data inst :
  create_instance data = Ok inst ->
  exists ts vmax,
    Forall2 (fun i t => exists q, V data !! i = Some q /\ t = (q, i))
            (F data) ts /\
    Vmax data = Some vmax /\
    F data <> [] /\
    volume inst = [(tt, LessEq (Linear ts) vmax)].
Proof.
  intros H. apply create_instance_Ok in H as (_ & _ & _ & _ & _ & Hvol).
  simpl in Hvol. inv_bind Hvol as r Hr.
  apply volume_rule_Ok in Hr as (ts & vmax & Hts & Hv & ->).
  exists ts, vmax. split; [exact Hts |]. split; [exact Hv |].
  destruct Hts as [| i t l ts' Hi Hts]; simpl in Hvol; [discriminate |].
  split; [discriminate |]. injection Hvol as <-. reflexivity.
Qed.

(** What instantiation has checked of the provided data. *)
Lemma create_instance_checked data inst :
  create_instance data = Ok inst ->
  (forall i q, c data !! i = Some q -> In i (F data) /\ 0 < q) /\
  (forall i j q, a data !! (i, j) = Some q ->
     In i (F data) /\ In j (N data) /\ 0 <= q) /\
  (forall j lo, Nmin data !! j = Some lo ->
     In j (N data) /\ num_le (Fin 0) lo) /\
  (forall j hi, Nmax data !! j = Some hi ->
     In j (N data) /\ num_le (Fin 0) hi) /\
  (forall i q, V data !! i = Some q -> In i (F data) /\ 0 < q) /\
  (forall vmax, Vmax data = Some vmax -> num_lt (Fin 0) vmax).
Proof.
  unfold create_instance. intros H.
  inv_bind H as f Hf. apply construct_set_Ok in Hf as [-> _].
  inv_bind H as n Hn. apply construct_set_Ok in Hn as [-> _].
  inv_bind H as p1 H1. inv_bind H as p2 H2. inv_bind H as p3 H3.
  inv_bind H as p4 H4. inv_bind H as p5 H5. inv_bind H as p6 H6.
  clear H.
  pose proof (construct_param_valid _ _ _ _ H1) as Hc.
  pose proof (construct_param_valid _ _ _ _ H2) as Ha.
  pose proof (construct_param_valid _ _ _ _ H3) as Hmin.
  pose proof (construct_param_valid _ _ _ _ H4) as Hmax.
  pose proof (construct_param_valid _ _ _ _ H5) as HV.
  pose proof (construct_param_valid _ _ _ _ H6) as HVmax.
  repeat split.
  - eapply Hc; eauto.
  - apply PositiveReals_Q. eapply Hc; eauto.
  - destruct (Ha _ _ H) as [Hin _]. apply in_prod_iff in Hin. tauto.
  - destruct (Ha _ _ H) as [Hin _]. apply in_prod_iff in Hin. tauto.
  - apply NonNegativeReals_Q. eapply Ha; eauto.
  - eapply Hmin; eauto.
  - apply NonNegativeReals_num. eapply Hmin; eauto.
  - eapply Hmax; eauto.
  - apply NonNegativeReals_num. eapply Hmax; eauto.
  - eapply HV; eauto.
  - apply PositiveReals_Q. eapply HV; eauto.
  - intros vmax Hv. apply PositiveReals_num.
    apply (HVmax tt vmax). rewrite Hv. apply lookup_singleton_eq.
Qed.

Lemma bound_with_default (decl : Param num) (provided : option num) d lo :
  default_value decl = Some d ->
  param_value decl provided = Ok lo -> lo = default d provided.
Proof.
  intros Hd. unfold param_value. rewrite Hd.
  destruct provided; simpl; congruence.
Qed.

(** A feasible assignment of an instance obeys the problem statement. *)
Lemma feasible_diet_obeys data inst y :
  create_instance data = Ok inst ->
  is_feasible (to_model inst) y ->
  (forall i, In i (F data) -> servings (y i)) /\
  (forall j, In j (N data) ->
     num_le (Nmin_of data j) (Fin (amount data j y)) /\
     num_le (Fin (amount data j y)) (Nmax_of data j)) /\
  (exists vmax, Vmax data = Some vmax /\
                num_le (Fin (total_volume data y)) vmax).
Proof.
  intros H [Hd Hc]. split; [| split].
  - intros i Hi. apply NonNegativeIntegers_servings.
    apply (Hd i). simpl.
    apply create_instance_Ok in H as (_ & _ & -> & _). exact Hi.
  - intros j Hj.
    destruct (nutrient_instance _ _ _ H Hj)
      as (ts & lo & hi & Hts & Hlo & Hhi & _ & _ & Hin).
    apply (bound_with_default Nmin_decl _ (Fin 0.0) _ eq_refl) in Hlo.
    apply (bound_with_default Nmax_decl _ infinity _ eq_refl) in Hhi.
    specialize (Hc _ Hin). simpl in Hc. rewrite eval_pysum in Hc.
    rewrite (eval_terms_table (fun i => a data !! (i, j)) _ _ _ Hts) in Hc.
    unfold Nmin_of, Nmax_of, amount. rewrite <- Hlo, <- Hhi. exact Hc.
  - destruct (volume_instance _ _ H) as (ts & vmax & Hts & Hv & _ & Hvol).
    exists vmax. split; [exact Hv |].
    assert (Hin : In (LessEq (Linear ts) vmax) (constraints (to_model inst))).
    { unfold to_model; simpl. apply in_or_app. right. rewrite Hvol.
      left. reflexivity. }
    specialize (Hc _ Hin). simpl in Hc.
    rewrite (eval_terms_table (fun i => V data !! i) _ _ _ Hts) in Hc.
    exact Hc.
Qed.

(** An assignment that obeys the problem statement is feasible. *)
Lemma obedient_diet_feasible data inst y :
  create_instance data = Ok inst ->
  (forall i, In i (F data) -> servings (y i)) ->
  (forall j, In j (N data) ->
     num_le (Nmin_of data j) (Fin (amount data j y)) /\
     num_le (Fin (amount data j y)) (Nmax_of data j)) ->
  (forall vmax, Vmax data = Some vmax ->
                num_le (Fin (total_volume data y)) vmax) ->
  is_feasible (to_model inst) y.
Proof.
  intros H Hs Hn Hv.
  destruct (volume_instance _ _ H) as (vs & vmax & Hvs & Hvmax & _ & Hvol).
  pose proof (create_instance_Ok _ _ H) as (_ & _ & Hx & _ & Hnl & _).
  split.
  - intros i Hi. simpl in Hi. rewrite Hx in Hi.
    apply NonNegativeIntegers_servings, Hs, Hi.
  - intros r Hr. unfold to_model in Hr; simpl in Hr.
    apply in_app_or in Hr as [Hr | Hr].
    + apply in_map_iff in Hr as ([j rel] & <- & Hin). simpl.
      destruct (Constraint_instance _ _ _ _ _ Hnl Hin) as [Hj Hrule].
      apply nutrient_rule_Ok in Hrule as (ts & lo & hi & Hts & Hlo & Hhi & Heq).
      injection Heq as ->.
      apply (bound_with_default Nmin_decl _ (Fin 0.0) _ eq_refl) in Hlo.
    apply (bound_with_default Nmax_decl _ infinity _ eq_refl) in Hhi.
      simpl. rewrite eval_pysum.
      rewrite (eval_terms_table (fun i => a data !! (i, j)) _ _ _ Hts).
      rewrite Hlo, Hhi. apply (Hn j Hj).
    + rewrite Hvol in Hr. destruct Hr as [<- | []]. simpl.
      rewrite (eval_terms_table (fun i => V data !! i) _ _ _ Hvs).
      apply Hv, Hvmax.
Qed.

(** The cost of a feasible assignment is not negative. *)
Lemma feasible_cost_nonneg data inst y :
  create_instance data = Ok inst ->
  is_feasible (to_model inst) y ->
  value_of (to_model inst) y = total_cost data y /\ 0 <= total_cost data y.
Proof.
  intros H Hy.
  destruct (feasible_diet_obeys _ _ _ H Hy) as (Hs & _ & _).
  destruct (create_instance_checked _ _ H) as (Hc & _).
  apply create_instance_Ok in H as (_ & _ & _ & (e & He & Hcost) & _ & _).
  split.
  { unfold value_of, to_model; simpl. rewrite Hcost. apply cost_rule_Ok, He. }
  assert (Hc' : forall i q, c data !! i = Some q -> 0 < q)
    by (intros i q Hq; apply (Hc i q Hq)).
  clear -Hs Hc'. unfold total_cost.
  induction (F data) as [| i l IH]; simpl; [apply Qle_refl |].
  assert (IH' : 0 <= fold_right
            (fun i acc => match c data !! i with
                          | Some ci => ci * y i + acc
                          | None => acc
                          end) 0 l)
    by (apply IH; intros; apply Hs; right; assumption).
  destruct (c data !! i) as [ci |] eqn:E; [| exact IH'].
  pose proof (Hc' _ _ E) as Hpos.
  destruct (Hs i (or_introl eq_refl)) as [Hy _].
  nra.
Qed.

Lemma not_contains {A} `{Numeric A} (d : domain) (v : A) :
  ~ contains d v = true -> contains d v = false.
Proof. apply not_true_is_false. Qed.

(** X1. The constraints that an instance of the diet model hands to the
    solver are those of the problem statement: an assignment is feasible
    exactly if every food has a non-negative whole number of servings,
    every nutrient lies between its minimum and its maximum (with the
    defaults 0.0 and infinity where the data gives none), and the volume
    does not exceed [Vmax]. *)
Theorem diet_feasible_iff data inst y :
  create_instance data = Ok inst ->
  is_feasible (to_model inst) y <->
    (forall i, In i (F data) -> servings (y i)) /\
    (forall j, In j (N data) ->
       num_le (Nmin_of data j) (Fin (amount data j y)) /\
       num_le (Fin (amount data j y)) (Nmax_of data j)) /\
    (exists vmax, Vmax data = Some vmax /\
                  num_le (Fin (total_volume data y)) vmax).
Proof.
  intros H. split.
  - apply feasible_diet_obeys, H.
  - intros (Hs & Hn & vmax & Hv & Hvol).
    apply (obedient_diet_feasible _ _ _ H Hs Hn).
    intros vmax' Hv'. congruence.
Qed.

Lemma diet_feasible_iff_witness :
  exists inst,
    create_instance two_foods_with_volume = Ok inst /\
    servings (two_of_A "A") /\
    num_le (Fin 1000) (Fin (amount two_foods_with_volume "Cal" two_of_A)).
Proof.
  destruct (create_instance two_foods_with_volume) as [inst | e] eqn:E.
  - exists inst. split; [reflexivity |].
    destruct (proj1 (diet_feasible_iff two_foods_with_volume inst two_of_A E))
      as (Hs & Hn & _).
    + apply is_feasibleb_spec. vm_compute in E. injection E as <-.
      vm_compute. reflexivity.
    + split; [apply Hs; left; reflexivity |].
      apply (Hn "Cal"). left. reflexivity.
  - vm_compute in E. discriminate E.
Defined.



(** The bounds that instantiation has checked, with the defaults. *)
Lemma checked_bounds data inst :
  create_instance data = Ok inst ->
  (forall j, In j (N data) -> num_le (Fin 0) (Nmax_of data j)) /\
  (exists vmax, Vmax data = Some vmax /\ num_lt (Fin 0) vmax).
Proof.
  intros H.
  destruct (create_instance_checked _ _ H) as (_ & _ & _ & Hmax & _ & HVmax).
  destruct (volume_instance _ _ H) as (vs & vmax & _ & Hvmax & _ & _).
  split.
  - intros j _. unfold Nmax_of.
    destruct (Nmax data !! j) as [hi |] eqn:E; simpl;
      [apply (Hmax j hi E) | exact I].
  - exists vmax. split; [exact Hvmax | apply HVmax, Hvmax].
Qed.

(** X3. The data of an instantiated diet model are complete and lie in
    the declared domains: every food has a positive cost and a positive
    volume, every food has a non-negative amount of every nutrient, the
    bounds of every nutrient are non-negative, and the volume limit is
    given and positive. *)
Theorem instance_data_complete_and_valid data inst :
  create_instance data = Ok inst ->
  (forall i, In i (F data) ->
     exists ci vi, c data !! i = Some ci /\ 0 < ci /\
                   V data !! i = Some vi /\ 0 < vi) /\
  (forall i j, In i (F data) -> In j (N data) ->
     exists q, a data !! (i, j) = Some q /\ 0 <= q) /\
  (forall j, In j (N data) ->
     num_le (Fin 0) (Nmin_of data j) /\ num_le (Fin 0) (Nmax_of data j)) /\
  (exists vmax, Vmax data = Some vmax /\ num_lt (Fin 0) vmax).
Proof.
  intros H.
  destruct (create_instance_checked _ _ H)
    as (Hc & Ha & Hmin & Hmax & HV & HVmax).
  destruct (volume_instance _ _ H) as (vs & vmax & Hvs & Hvmax & _ & _).
  pose proof (create_instance_Ok _ _ H) as (_ & _ & _ & (e & He & _) & _ & _).
  apply cost_rule_terms in He as (cs & Hcs & _).
  repeat split.
  - intros i Hi.
    destruct (Forall2_In_left _ _ _ _ Hcs Hi) as (t & _ & ci & Hci & _).
    destruct (Forall2_In_left _ _ _ _ Hvs Hi) as (t' & _ & vi & Hvi & _).
    exists ci, vi. repeat split; auto.
    + apply (Hc i ci Hci).
    + apply (HV i vi Hvi).
  - intros i j Hi Hj.
    destruct (nutrient_instance _ _ _ H Hj) as (ts & _ & _ & Hts & _).
    destruct (Forall2_In_left _ _ _ _ Hts Hi) as (t & _ & q & Hq & _).
    exists q. split; [exact Hq | apply (Ha i j q Hq)].
  - unfold Nmin_of. destruct (Nmin data !! j) as [lo |] eqn:E; simpl.
    + apply (Hmin j lo E).
    + unfold Qle; simpl. lia.
  - unfold Nmax_of. destruct (Nmax data !! j) as [hi |] eqn:E; simpl.
    + apply (Hmax j hi E).
    + exact I.
  - exists vmax. split; [exact Hvmax | apply HVmax, Hvmax].
Qed.

Lemma instance_data_complete_and_valid_witness :
  exists vmax, Vmax diet_dat = Some vmax /\ num_lt (Fin 0) vmax.
Proof.
  destruct (create_instance diet_dat) as [inst | e] eqn:E.
  - apply (instance_data_complete_and_valid diet_dat inst E).
  - vm_compute in E. discriminate E.
Defined.

(** X4. A provided value outside the domain of its parameter (a cost or a
    volume that is not positive, a negative amount or nutrient bound, a
    volume limit that is not positive) is rejected when the data are
    loaded: instantiation raises a data-validation error before any rule
    runs. *)
Theorem value_outside_domain_is_rejected data :
  (exists i q, c data !! i = Some q /\ q <= 0) \/
  (exists i j q, a data !! (i, j) = Some q /\ q < 0) \/
  (exists j q, Nmin data !! j = Some (Fin q) /\ q < 0) \/
  (exists j q, Nmax data !! j = Some (Fin q) /\ q < 0) \/
  (exists i q, V data !! i = Some q /\ q <= 0) \/
  (exists q, Vmax data = Some (Fin q) /\ q <= 0) ->
  create_instance data = Raise DataValidationError.
Proof.
  unfold create_instance.
  intros [(i & q & Hq & Hbad) | [(i & j & q & Hq & Hbad) |
         [(j & q & Hq & Hbad) | [(j & q & Hq & Hbad) |
         [(i & q & Hq & Hbad) | (q & Hq & Hbad)]]]]].
  - assert (Hout : within c_decl q = false).
    { apply not_contains. rewrite PositiveReals_Q. lra. }
    rejected c_decl Hq Hout.
  - assert (Hout : within a_decl q = false).
    { apply not_contains. rewrite NonNegativeReals_Q. lra. }
    rejected a_decl Hq Hout.
  - assert (Hout : within Nmin_decl (Fin q) = false).
    { apply not_contains. rewrite NonNegativeReals_num. simpl. lra. }
    rejected Nmin_decl Hq Hout.
  - assert (Hout : within Nmax_decl (Fin q) = false).
    { apply not_contains. rewrite NonNegativeReals_num. simpl. lra. }
    rejected Nmax_decl Hq Hout.
  - assert (Hout : within V_decl q = false).
    { apply not_contains. rewrite PositiveReals_Q. lra. }
    rejected V_decl Hq Hout.
  - assert (Hout : within Vmax_decl (Fin q) = false).
    { apply not_contains. rewrite PositiveReals_num. simpl. lra. }
    assert (Hq' : scalar (Vmax data) !! tt = Some (Fin q))
      by (rewrite Hq; apply lookup_singleton_eq).
    rejected Vmax_decl Hq' Hout.
Qed.

Lemma value_outside_domain_is_rejected_witness :
  create_instance free_lunch = Raise DataValidationError.
Proof.
  apply value_outside_domain_is_rejected.
  left. exists "A", 0. split; [vm_compute; reflexivity | apply Qle_refl].
Defined.

(** X5. In an instance of the diet model the objective of a feasible
    assignment is its total cost and is never negative; a solve cannot
    truthfully report [unbounded]. *)
Theorem diet_is_bounded data inst :
  create_instance data = Ok inst ->
  (forall y, is_feasible (to_model inst) y ->
             value_of (to_model inst) y = total_cost data y /\
             0 <= value_of (to_model inst) y) /\
  ~ solved (to_model inst) unbounded.
Proof.
  intros H.
  assert (Hnn : forall y, is_feasible (to_model inst) y ->
             value_of (to_model inst) y = total_cost data y /\
             0 <= value_of (to_model inst) y).
  { intros y Hy. destruct (feasible_cost_nonneg _ _ _ H Hy) as [Hv Hc].
    rewrite Hv. auto. }
  split; [exact Hnn |].
  intros Hub. destruct (Hub (-1)) as (y & Hy & Hlow).
  destruct (Hnn y Hy) as [_ Hpos].
  apply create_instance_Ok in H as (_ & _ & _ & (e & _ & Hcost) & _ & _).
  unfold to_model in Hlow; simpl in Hlow. rewrite Hcost in Hlow.
  simpl in Hlow. unfold value_of, to_model in Hpos; simpl in Hpos.
  rewrite Hcost in Hpos; simpl in Hpos.
  unfold value_of in Hlow; simpl in Hlow. lra.
Qed.

Lemma diet_is_bounded_witness :
  exists inst,
    create_instance diet_dat = Ok inst /\
    0 <= value_of (to_model inst) results_yml.
Proof.
  destruct (create_instance diet_dat) as [inst | e] eqn:E.
  - exists inst. split; [reflexivity |].
    apply (diet_is_bounded diet_dat inst E).
    apply is_feasibleb_spec. vm_compute in E. injection E as <-.
    vm_compute. reflexivity.
  - vm_compute in E. discriminate E.
Defined.

Lemma total_cost_nothing data : total_cost data nothing == 0.
Proof.
  unfold total_cost, nothing.
  induction (F data) as [| i l IH]; simpl; [reflexivity |].
  destruct (c data !! i); rewrite IH; ring.
Qed.

(** X6. If no nutrient of an instance requires a positive minimum (its
    [Nmin] is left to the default or is 0), eating nothing is optimal and
    costs nothing. *)
Theorem eating_nothing_is_optimal data inst :
  create_instance data = Ok inst ->
  (forall j, In j (N data) -> num_le (Nmin_of data j) (Fin 0)) ->
  is_optimal (to_model inst) nothing /\
  value_of (to_model inst) nothing == 0.
Proof.
  intros H Hmin.
  destruct (checked_bounds data inst H)
    as (Hmax & vmax & Hvmax & Hpos).
  assert (Hfeas : is_feasible (to_model inst) nothing).
  { apply (obedient_diet_feasible _ _ _ H).
    - intros i _. split; [apply Qle_refl | exists 0%Z; reflexivity].
    - intros j Hj.
      assert (Hz : amount data j nothing == 0).
      { unfold amount, nothing.
        rewrite (sum_over_ext _ (fun _ => 0)), sum_over_const_zero;
          [reflexivity |].
        intros i _. destruct (a data !! (i, j)); ring. }
      specialize (Hmin j Hj). specialize (Hmax j Hj).
      destruct (Nmin_of data j), (Nmax_of data j); simpl in *;
        try rewrite Hz; auto; try apply Qle_refl.
    - intros vmax' Hv'. assert (vmax' = vmax) as -> by congruence.
      assert (Hz : total_volume data nothing == 0).
      { unfold total_volume, nothing.
        rewrite (sum_over_ext _ (fun _ => 0)), sum_over_const_zero;
          [reflexivity |].
        intros i _. destruct (V data !! i); ring. }
      destruct vmax; simpl in *; [rewrite Hz; apply Qlt_le_weak, Hpos | exact I]. }
  destruct (feasible_cost_nonneg _ _ _ H Hfeas) as [Hv _].
  pose proof (create_instance_Ok _ _ H) as (_ & _ & _ & (e & _ & Hcost) & _ & _).
  split; [split; [exact Hfeas |] |].
  - intros y Hy. destruct (feasible_cost_nonneg _ _ _ H Hy) as [Hvy Hy0].
    unfold to_model at 1; simpl. rewrite Hcost; simpl.
    rewrite Hv, Hvy, total_cost_nothing. exact Hy0.
  - rewrite Hv. apply total_cost_nothing.
Qed.

Lemma eating_nothing_is_optimal_witness :
  exists inst,
    create_instance no_requirements = Ok inst /\
    is_optimal (to_model inst) nothing.
Proof.
  destruct (create_instance no_requirements) as [inst | e] eqn:E.
  - exists inst. split; [reflexivity |].
    apply (eating_nothing_is_optimal no_requirements inst E).
    intros j [<- | []]. vm_compute. discriminate.
  - vm_compute in E. discriminate E.
Defined.

(** X7. An instance of the diet model has one variable per food, one
    nutrient constraint per nutrient, none skipped and none twice, and
    one volume constraint. *)
Theorem diet_instance_shape data inst :
  create_instance data = Ok inst ->
  x inst = F data /\
  map fst (nutrient_limit inst) = N data /\
  map fst (volume inst) = [tt] /\
  length (constraints (to_model inst)) = S (length (N data)).
Proof.
  intros H.
  destruct (volume_instance _ _ H) as (vs & vmax & _ & _ & _ & Hvol).
  pose proof (create_instance_Ok _ _ H) as (_ & _ & Hx & _ & Hnl & _).
  assert (Hidx : map fst (nutrient_limit inst) = N data).
  { rewrite (Constraint_indices _ (fun _ => true) _ _ Hnl).
    - apply filter_all.
    - intros j _. split; [| discriminate].
      intros Hs. apply nutrient_rule_Ok in Hs as (? & ? & ? & _ & _ & _ & ?).
      discriminate. }
  repeat split; auto.
  - rewrite Hvol. reflexivity.
  - unfold to_model; simpl.
    rewrite length_app, !length_map, Hvol, <- Hidx, length_map. simpl. lia.
Qed.

Lemma diet_instance_shape_witness :
  exists inst,
    create_instance diet_dat = Ok inst /\
    map fst (nutrient_limit inst) = nutrients.
Proof.
  destruct (create_instance diet_dat) as [inst | e] eqn:E.
  - exists inst. split; [reflexivity |].
    apply (diet_instance_shape diet_dat inst E).
  - vm_compute in E. discriminate E.
Defined.

Lemma total_cost_sum_over data y :
  total_cost data y ==
    sum_over (fun i => match c data !! i with
                       | Some q => q * y i
                       | None => 0
                       end) (F data).
Proof.
  unfold total_cost. induction (F data) as [| i l IH]; simpl; [reflexivity |].
  destruct (c data !! i); rewrite IH; ring.
Qed.

Lemma reordered_sym d1 d2 : reordered d1 d2 -> reordered d2 d1.
Proof.
  intros (HF & HN & Hc & Ha & Hmin & Hmax & HV & HVmax).
  repeat split; auto; symmetry; assumption.
Qed.

Lemma reordered_feasible d1 d2 inst1 inst2 y :
  reordered d1 d2 ->
  create_instance d1 = Ok inst1 -> create_instance d2 = Ok inst2 ->
  is_feasible (to_model inst1) y -> is_feasible (to_model inst2) y.
Proof.
  intros (HF & HN & Hc & Ha & Hmin & Hmax & HV & HVmax) H1 H2 Hy.
  destruct (feasible_diet_obeys _ _ _ H1 Hy) as (Hs & Hn & vmax & Hv & Hvol).
  apply (obedient_diet_feasible _ _ _ H2).
  - intros i Hi. apply Hs. apply (Permutation_in _ (Permutation_sym HF) Hi).
  - intros j Hj.
    specialize (Hn j (Permutation_in _ (Permutation_sym HN) Hj)).
    assert (Heq : amount d1 j y == amount d2 j y).
    { unfold amount. rewrite Ha. apply sum_over_Permutation, HF. }
    unfold Nmin_of, Nmax_of in *. rewrite <- Hmin, <- Hmax.
    destruct Hn as [Hlo Hhi]. split.
    + apply (num_le_Qeq_r _ _ _ Heq Hlo).
    + apply (num_le_Qeq_l _ _ _ Heq Hhi).
  - intros vmax' Hv'. assert (vmax' = vmax) as -> by congruence.
    assert (Heq : total_volume d1 y == total_volume d2 y).
    { unfold total_volume. rewrite HV. apply sum_over_Permutation, HF. }
    apply (num_le_Qeq_l _ _ _ Heq Hvol).
Qed.

(** X18. The order in which the data list the foods and the nutrients
    does not matter: two data sets that differ only in these orders give
    instances with the same feasible assignments and the same objective
    values. *)
Theorem diet_order_is_irrelevant d1 d2 inst1 inst2 y :
  reordered d1 d2 ->
  create_instance d1 = Ok inst1 -> create_instance d2 = Ok inst2 ->
  (is_feasible (to_model inst1) y <-> is_feasible (to_model inst2) y) /\
  value_of (to_model inst1) y == value_of (to_model inst2) y.
Proof.
  intros Hr H1 H2. split.
  - split.
    + apply (reordered_feasible _ _ _ _ _ Hr H1 H2).
    + apply (reordered_feasible _ _ _ _ _ (reordered_sym _ _ Hr) H2 H1).
  - destruct Hr as (HF & _ & Hc & _).
    pose proof (create_instance_Ok _ _ H1)
      as (_ & _ & _ & (e1 & He1 & Hcost1) & _ & _).
    pose proof (create_instance_Ok _ _ H2)
      as (_ & _ & _ & (e2 & He2 & Hcost2) & _ & _).
    unfold value_of, to_model; simpl. rewrite Hcost1, Hcost2; simpl.
    rewrite (cost_rule_Ok _ _ He1), (cost_rule_Ok _ _ He2).
    rewrite !total_cost_sum_over, <- Hc.
    apply sum_over_Permutation, HF.
Qed.

Lemma diet_order_is_irrelevant_witness :
  exists inst1 inst2,
    create_instance two_foods_with_volume = Ok inst1 /\
    create_instance two_foods_reversed = Ok inst2 /\
    is_feasible (to_model inst2) two_of_A.
Proof.
  destruct (create_instance two_foods_with_volume) as [inst1 | e] eqn:E1;
    [| vm_compute in E1; discriminate E1].
  destruct (create_instance two_foods_reversed) as [inst2 | e] eqn:E2;
    [| vm_compute in E2; discriminate E2].
  exists inst1, inst2.
  split; [reflexivity |]. split; [reflexivity |].
  apply (diet_order_is_irrelevant two_foods_with_volume two_foods_reversed
           inst1 inst2 two_of_A); [| exact E1 | exact E2 |].
  - repeat split; simpl; try reflexivity. apply perm_swap.
  - apply is_feasibleb_spec. vm_compute in E1. injection E1 as <-.
    vm_compute. reflexivity.
Defined.

End DietInstances.

(** * Instances of the max-flow model *)

Section MaxFlowInstances.
Import MaxFlow.

Lemma create_instance_checked' data inst :
  create_instance data = Ok inst ->
  (forall i j, In (i, j) (A data) -> In i (N data) /\ In j (N data)) /\
  (forall sv, s data = Some sv -> In sv (N data)) /\
  (forall tv, t data = Some tv -> In tv (N data)) /\
  (forall ij v, c data !! ij = Some v -> In ij (A data)).
Proof.
  unfold create_instance. intros H.
  inv_bind H as n Hn. apply construct_set_Ok in Hn as [-> _].
  inv_bind H as arcs Ha. pose proof (construct_set_within _ _ _ Ha) as Hw.
  apply construct_set_Ok in Ha as [-> _].
  inv_bind H as p1 H1. inv_bind H as p2 H2. inv_bind H as p3 H3. clear H.
  pose proof (construct_param_valid _ _ _ _ H1) as Hs.
  pose proof (construct_param_valid _ _ _ _ H2) as Ht.
  pose proof (construct_param_valid _ _ _ _ H3) as Hc.
  repeat split.
  - specialize (Hw _ H). simpl in Hw. apply andb_true_iff in Hw as [Hi _].
    apply bool_decide_eq_true in Hi. apply list_elem_of_In, Hi.
  - specialize (Hw _ H). simpl in Hw. apply andb_true_iff in Hw as [_ Hj].
    apply bool_decide_eq_true in Hj. apply list_elem_of_In, Hj.
  - intros sv Hsv. destruct (Hs tt sv) as [_ Hin].
    { rewrite Hsv. apply lookup_singleton_eq. }
    simpl in Hin. apply bool_decide_eq_true in Hin. apply list_elem_of_In, Hin.
  - intros tv Htv. destruct (Ht tt tv) as [_ Hin].
    { rewrite Htv. apply lookup_singleton_eq. }
    simpl in Hin. apply bool_decide_eq_true in Hin. apply list_elem_of_In, Hin.
  - intros ij v Hv. apply (Hc ij v Hv).
Qed.

Lemma limit_rule_Ok data i j r :
  limit_rule data i j = Ok r ->
  exists cij, c data !! (i, j) = Some cij /\
              r = Rel (LessEq (Linear [f (i, j)]) cij).
Proof.
  unfold limit_rule, param_value. intros H.
  destruct (c data !! (i, j)) as [cij |]; simpl in H; [| discriminate].
  injection H as <-. eauto.
Qed.

Lemma py_eq_Rel {V} (l r : expr V) rel : py_eq l r = Rel rel -> rel = Equal l r.
Proof. destruct l, r; simpl; congruence. Qed.

Lemma eval_flows (x : assignment arc) (l : list arc) :
  eval x (pysum (map f l)) == sum_over x l.
Proof. rewrite eval_pysum. apply eval_terms_map. Qed.

(** The instance of the capacity constraint of an arc. *)
Lemma limit_instance data inst ij :
  create_instance data = Ok inst -> In ij (A data) ->
  exists cij, c data !! ij = Some cij /\
              In (LessEq (Linear [f ij]) cij) (constraints (to_model inst)).
Proof.
  intros H Hij. apply create_instance_Ok' in H as (_ & _ & _ & _ & Hlim & _).
  destruct (Constraint_index _ _ _ _ Hlim Hij) as [Hs | (rel & Hr & Hin)];
    destruct ij as [i j].
  - apply limit_rule_Ok in Hs as (? & _ & ?). discriminate.
  - apply limit_rule_Ok in Hr as (cij & Hc & [= ->]).
    exists cij. split; [exact Hc |].
    unfold to_model; simpl. apply in_or_app. left.
    apply (in_map snd) in Hin. exact Hin.
Qed.

(** The instance of the flow constraint of an inner node. *)
Lemma flow_instance data inst sv tv k :
  create_instance data = Ok inst ->
  s data = Some sv -> t data = Some tv ->
  In k (N data) -> inner sv tv k = true ->
  In (Equal (pysum (map f (List.filter (into k) (A data))))
            (pysum (map f (List.filter (out_of k) (A data)))))
     (constraints (to_model inst)) /\
  exists ij, In ij (A data) /\ (into k ij = true \/ out_of k ij = true).
Proof.
  intros H Hs Ht Hk Hinner.
  apply andb_true_iff in Hinner as [Hks Hkt].
  apply negb_true_iff, String.eqb_neq in Hks, Hkt.
  apply create_instance_Ok' in H as (_ & _ & _ & _ & _ & Hfl).
  destruct (Constraint_index _ _ _ _ Hfl Hk) as [Hskip | (rel & Hr & Hin)].
  { apply (flow_rule_skip_iff _ _ _ _ Hs Ht) in Hskip. tauto. }
  rewrite (flow_rule_inner _ _ _ _ Hs Ht Hks Hkt) in Hr.
  injection Hr as Hr. pose proof (py_eq_Rel _ _ _ Hr) as ->. split.
  - unfold to_model; simpl. apply in_or_app. right.
    apply (in_map snd) in Hin. exact Hin.
  - destruct (List.filter (into k) (A data)) as [| ij l] eqn:Ei.
    + destruct (List.filter (out_of k) (A data)) as [| ij l] eqn:Eo;
        [discriminate |].
      assert (Hij : In ij (List.filter (out_of k) (A data)))
        by (rewrite Eo; left; reflexivity).
      apply filter_In in Hij as [Hij Ho]. eauto.
    + assert (Hij : In ij (List.filter (into k) (A data)))
        by (rewrite Ei; left; reflexivity).
      apply filter_In in Hij as [Hij Hi]. eauto.
Qed.

(** A feasible flow obeys the problem statement. *)
Lemma feasible_flow_obeys data inst sv tv x :
  create_instance data = Ok inst ->
  s data = Some sv -> t data = Some tv ->
  is_feasible (to_model inst) x ->
  (forall ij, In ij (A data) ->
     0 <= x ij /\
     exists cij, c data !! ij = Some cij /\ num_le (Fin (x ij)) cij) /\
  (forall k, In k (N data) -> inner sv tv k = true ->
     inflow data k x == outflow data k x).
Proof.
  intros H Hs Ht [Hd Hc]. split.
  - intros ij Hij. split.
    + apply (contains_nonneg f_domain). apply (Hd ij). simpl.
      apply create_instance_Ok' in H as (_ & _ & -> & _). exact Hij.
    + destruct (limit_instance _ _ _ H Hij) as (cij & Hcij & Hin).
      exists cij. split; [exact Hcij |].
      specialize (Hc _ Hin). destruct cij; simpl in *; [lra | exact I].
  - intros k Hk Hinner.
    destruct (flow_instance _ _ _ _ _ H Hs Ht Hk Hinner) as [Hin _].
    specialize (Hc _ Hin). simpl in Hc. rewrite !eval_flows in Hc. exact Hc.
Qed.

(** A flow that obeys the problem statement is feasible. *)
Lemma obedient_flow_feasible data inst sv tv x :
  create_instance data = Ok inst ->
  s data = Some sv -> t data = Some tv ->
  (forall ij, In ij (A data) ->
     0 <= x ij /\
     forall cij, c data !! ij = Some cij -> num_le (Fin (x ij)) cij) ->
  (forall k, In k (N data) -> inner sv tv k = true ->
     inflow data k x == outflow data k x) ->
  is_feasible (to_model inst) x.
Proof.
  intros H Hs Ht Harcs Hnodes.
  pose proof (create_instance_Ok' _ _ H) as (_ & _ & Hfl & _ & Hlim & Hflow).
  split.
  - intros ij Hij. simpl in Hij. rewrite Hfl in Hij.
    apply NonNegativeReals_Q, Harcs, Hij.
  - intros r Hr. unfold to_model in Hr; simpl in Hr.
    apply in_app_or in Hr as [Hr | Hr].
    + apply in_map_iff in Hr as ([[i j] rel] & <- & Hin). simpl.
      destruct (Constraint_instance _ _ _ _ _ Hlim Hin) as [Hij Hrule].
      apply limit_rule_Ok in Hrule as (cij & Hc & [= ->]).
      destruct (Harcs _ Hij) as [_ Hcap]. specialize (Hcap _ Hc).
      destruct cij; simpl in *; [lra | exact I].
    + apply in_map_iff in Hr as ([k rel] & <- & Hin). simpl.
      destruct (no_balance_at_the_ends _ _ _ _ _ _ H Hs Ht Hin) as [Hks Hkt].
      destruct (Constraint_instance _ _ _ _ _ Hflow Hin) as [Hk Hrule].
      rewrite (flow_rule_inner _ _ _ _ Hs Ht Hks Hkt) in Hrule.
      injection Hrule as Hrule. pose proof (py_eq_Rel _ _ _ Hrule) as ->.
      simpl. rewrite !eval_flows. apply (Hnodes k Hk).
      unfold inner. apply String.eqb_neq in Hks, Hkt. rewrite Hks, Hkt.
      reflexivity.
Qed.

(** X8. The constraints that an instance of the max-flow model hands to
    the solver are those of the problem statement: a flow is feasible
    exactly if on every arc it is non-negative and at most the capacity
    of the arc, and at every node other than the source and the sink the
    flow in equals the flow out. *)
Theorem maxflow_feasible_iff data inst sv tv x :
  create_instance data = Ok inst ->
  s data = Some sv -> t data = Some tv ->
  is_feasible (to_model inst) x <->
    (forall ij, In ij (A data) ->
       0 <= x ij /\
       exists cij, c data !! ij = Some cij /\ num_le (Fin (x ij)) cij) /\
    (forall k, In k (N data) -> inner sv tv k = true ->
       inflow data k x == outflow data k x).
Proof.
  intros H Hs Ht. split.
  - apply (feasible_flow_obeys _ _ _ _ _ H Hs Ht).
  - intros [Harcs Hnodes].
    apply (obedient_flow_feasible _ _ _ _ _ H Hs Ht); [| exact Hnodes].
    intros ij Hij. destruct (Harcs ij Hij) as (Hpos & cij & Hc & Hle).
    split; [exact Hpos |]. intros cij' Hc'. congruence.
Qed.

Lemma maxflow_feasible_iff_witness :
  exists inst,
    create_instance maxflow_dat = Ok inst /\
    inflow maxflow_dat "C" results_yml == outflow maxflow_dat "C" results_yml.
Proof.
  destruct (create_instance maxflow_dat) as [inst | e] eqn:E.
  - exists inst. split; [reflexivity |].
    destruct (proj1 (maxflow_feasible_iff maxflow_dat inst "Zoo" "Home"
                       results_yml E eq_refl eq_refl)) as [_ Hn].
    + apply is_feasibleb_spec. vm_compute in E. injection E as <-.
      vm_compute. reflexivity.
    + apply Hn; [simpl; auto 8 | reflexivity].
  - vm_compute in E. discriminate E.
Defined.

(** X9. An instantiated max-flow model is well formed: nodes and arcs are
    free of duplicates, the source, the sink and both ends of every arc
    are nodes, every arc has a capacity, and every node other than the
    source and the sink is touched by an arc. *)
Theorem maxflow_instance_well_formed data inst sv tv :
  create_instance data = Ok inst ->
  s data = Some sv -> t data = Some tv ->
  NoDup (N data) /\ NoDup (A data) /\
  In sv (N data) /\ In tv (N data) /\
  (forall i j, In (i, j) (A data) ->
     In i (N data) /\ In j (N data) /\ is_Some (c data !! (i, j))) /\
  (forall k, In k (N data) -> inner sv tv k = true ->
     exists ij, In ij (A data) /\ (into k ij = true \/ out_of k ij = true)).
Proof.
  intros H Hs Ht.
  destruct (create_instance_checked' _ _ H) as (Harcs & Hsv & Htv & _).
  pose proof (create_instance_Ok' _ _ H) as (HN & HA & _).
  repeat split; auto.
  - apply (Harcs i j H0).
  - apply (Harcs i j H0).
  - destruct (limit_instance _ _ _ H H0) as (cij & Hc & _). eauto.
  - intros k Hk Hinner.
    apply (flow_instance _ _ _ _ _ H Hs Ht Hk Hinner).
Qed.

Lemma maxflow_instance_well_formed_witness :
  NoDup (A maxflow_dat) /\ In "Home" (N maxflow_dat).
Proof.
  destruct (create_instance maxflow_dat) as [inst | e] eqn:E.
  - destruct (maxflow_instance_well_formed maxflow_dat inst "Zoo" "Home"
                E eq_refl eq_refl) as (_ & HA & _ & Ht & _).
    split; assumption.
  - vm_compute in E. discriminate E.
Defined.

(** X10. An arc with an end outside the node set, or a source or sink
    outside the node set, is rejected when the data are loaded:
    instantiation raises a data-validation error. *)
Theorem foreign_node_is_rejected data :
  (exists i j, In (i, j) (A data) /\ (~ In i (N data) \/ ~ In j (N data))) \/
  (exists sv, s data = Some sv /\ ~ In sv (N data)) \/
  (exists tv, t data = Some tv /\ ~ In tv (N data)) ->
  create_instance data = Raise DataValidationError.
Proof.
  intros Hbad. unfold create_instance.
  apply bind_Raise_same; [intros ? ?; eapply construct_set_raises; eassumption |].
  intros n Hn. apply construct_set_Ok in Hn as [-> _].
  assert (Hmem : forall k, ~ In k (N data) -> bool_decide (k ∈ N data) = false).
  { intros k Hk. apply bool_decide_eq_false. rewrite list_elem_of_In. exact Hk. }
  destruct Hbad as [(i & j & Hij & Hout) | [(sv & Hsv & Hout) | (tv & Htv & Hout)]].
  - rewrite (construct_set_outside _ _ (i, j) Hij); [reflexivity |].
    simpl. destruct Hout as [Hout | Hout]; rewrite (Hmem _ Hout);
      [reflexivity | apply andb_false_r].
  - assert (Hq : scalar (s data) !! tt = Some sv)
      by (rewrite Hsv; apply lookup_singleton_eq).
    rejected (s_decl (N data)) Hq (Hmem _ Hout).
  - assert (Hq : scalar (t data) !! tt = Some tv)
      by (rewrite Htv; apply lookup_singleton_eq).
    rejected (t_decl (N data)) Hq (Hmem _ Hout).
Qed.

Lemma foreign_node_is_rejected_witness :
  create_instance foreign_arc = Raise DataValidationError.
Proof.
  apply foreign_node_is_rejected. left. exists "s", "u". split.
  - simpl. auto.
  - right. simpl. intros [H | [H | []]]; discriminate H.
Defined.

(** Summing, over the nodes, the flow on the arcs that have the node at
    one side counts every arc once. *)
Lemma flows_by_node (side : arc -> node) (x : assignment arc)
    (nodes : list node) (arcs : list arc) :
  NoDup nodes -> (forall ij, In ij arcs -> In (side ij) nodes) ->
  sum_over (fun k => sum_over x
              (List.filter (fun ij => String.eqb (side ij) k) arcs)) nodes
  == sum_over x arcs.
Proof.
  intros Hnd. induction arcs as [| ij arcs IH]; simpl; intros Hside.
  - apply sum_over_const_zero.
  - rewrite <- IH by auto.
    rewrite <- (sum_over_only (fun k => String.eqb (side ij) k) (x ij)
                  (side ij) nodes Hnd);
      [| auto | intros k; rewrite String.eqb_eq; split; congruence].
    rewrite <- sum_over_plus. apply sum_over_ext. intros k _.
    destruct (String.eqb (side ij) k); simpl; ring.
Qed.

(** A sum over the nodes splits into the inner nodes, the source and the
    sink. *)
Lemma sum_over_nodes (g : node -> Q) (nodes : list node) sv tv :
  NoDup nodes -> In sv nodes -> In tv nodes -> sv <> tv ->
  sum_over g nodes ==
    sum_over (fun k => if inner sv tv k then g k else 0) nodes + g sv + g tv.
Proof.
  intros Hnd Hs Ht Hne.
  rewrite <- (sum_over_only (fun k => String.eqb k sv) (g sv) sv nodes Hnd Hs
                (fun k => String.eqb_eq k sv)).
  rewrite <- (sum_over_only (fun k => String.eqb k tv) (g tv) tv nodes Hnd Ht
                (fun k => String.eqb_eq k tv)).
  rewrite <- !sum_over_plus. apply sum_over_ext. intros k _. unfold inner.
  destruct (String.eqb_spec k sv) as [Hks | Hks];
    destruct (String.eqb_spec k tv) as [Hkt | Hkt]; simpl; subst;
    try congruence; ring.
Qed.

(** The net flow into the sink is the net flow out of the source. *)
Lemma net_flow data inst sv tv x :
  create_instance data = Ok inst ->
  s data = Some sv -> t data = Some tv -> sv <> tv ->
  is_feasible (to_model inst) x ->
  value_of (to_model inst) x == inflow data tv x /\
  inflow data tv x - outflow data tv x == outflow data sv x - inflow data sv x.
Proof.
  intros H Hs Ht Hne Hx.
  destruct (feasible_flow_obeys _ _ _ _ _ H Hs Ht Hx) as [_ Hnodes].
  destruct (create_instance_checked' _ _ H) as (Harcs & Hsv & Htv & _).
  pose proof (create_instance_Ok' _ _ H)
    as (HN & _ & _ & (e & He & Htot) & _ & _).
  split.
  { unfold value_of, to_model; simpl. rewrite Htot; simpl.
    rewrite (total_rule_Ok _ _ Ht) in He. injection He as <-.
    apply eval_flows. }
  assert (Hin : sum_over (fun k => inflow data k x) (N data)
                == sum_over x (A data)).
  { apply (flows_by_node snd x _ _ HN). intros [i j] Hij. apply (Harcs i j Hij). }
  assert (Hout : sum_over (fun k => outflow data k x) (N data)
                 == sum_over x (A data)).
  { apply (flows_by_node fst x _ _ HN). intros [i j] Hij. apply (Harcs i j Hij). }
  rewrite (sum_over_nodes (fun k => inflow data k x) _ sv tv HN
             (Hsv _ Hs) (Htv _ Ht) Hne) in Hin.
  rewrite (sum_over_nodes (fun k => outflow data k x) _ sv tv HN
             (Hsv _ Hs) (Htv _ Ht) Hne) in Hout.
  assert (Hinner :
    sum_over (fun k => if inner sv tv k then inflow data k x else 0) (N data)
    == sum_over (fun k => if inner sv tv k then outflow data k x else 0)
                (N data)).
  { apply sum_over_ext. intros k Hk.
    destruct (inner sv tv k) eqn:E; [apply (Hnodes k Hk E) | reflexivity]. }
  rewrite Hinner in Hin. lra.
Qed.

(** X11. Flow is conserved across the network: in every feasible flow of
    an instance whose source and sink differ, the net flow into the sink
    equals the net flow out of the source.  The objective is the flow
    into the sink. *)
Theorem flow_is_conserved data inst sv tv x :
  create_instance data = Ok inst ->
  s data = Some sv -> t data = Some tv -> sv <> tv ->
  is_feasible (to_model inst) x ->
  value_of (to_model inst) x == inflow data tv x /\
  inflow data tv x - outflow data tv x == outflow data sv x - inflow data sv x.
Proof. exact (net_flow data inst sv tv x). Qed.

Lemma flow_is_conserved_witness :
  inflow maxflow_dat "Home" results_yml - outflow maxflow_dat "Home" results_yml
  == outflow maxflow_dat "Zoo" results_yml - inflow maxflow_dat "Zoo" results_yml.
Proof.
  destruct (create_instance maxflow_dat) as [inst | e] eqn:E.
  - apply (flow_is_conserved maxflow_dat inst "Zoo" "Home" results_yml
             E eq_refl eq_refl).
    + discriminate.
    + apply is_feasibleb_spec. vm_compute in E. injection E as <-.
      vm_compute. reflexivity.
  - vm_compute in E. discriminate E.
Defined.

(** X12. If no arc enters the source and none leaves the sink, the
    objective of a feasible flow is the flow that leaves the source. *)
Theorem objective_is_flow_out_of_source data inst sv tv x :
  create_instance data = Ok inst ->
  s data = Some sv -> t data = Some tv -> sv <> tv ->
  (forall ij, In ij (A data) -> into sv ij = false /\ out_of tv ij = false) ->
  is_feasible (to_model inst) x ->
  value_of (to_model inst) x == outflow data sv x.
Proof.
  intros H Hs Ht Hne Hends Hx.
  assert (Hnone : forall p : arc -> bool,
            (forall ij, In ij (A data) -> p ij = false) ->
            sum_over x (List.filter p (A data)) == 0).
  { intros p Hp. rewrite sum_over_filter.
    rewrite (sum_over_ext _ (fun _ => 0)); [apply sum_over_const_zero |].
    intros ij Hij. rewrite (Hp ij Hij). reflexivity. }
  assert (Hs0 : inflow data sv x == 0)
    by (apply Hnone; intros ij Hij; apply (Hends ij Hij)).
  assert (Ht0 : outflow data tv x == 0)
    by (apply Hnone; intros ij Hij; apply (Hends ij Hij)).
  destruct (net_flow _ _ _ _ _ H Hs Ht Hne Hx) as [Hv Hc]. lra.
Qed.

Lemma objective_is_flow_out_of_source_witness :
  exists inst,
    create_instance maxflow_dat = Ok inst /\
    value_of (to_model inst) results_yml
    == outflow maxflow_dat "Zoo" results_yml.
Proof.
  destruct (create_instance maxflow_dat) as [inst | e] eqn:E.
  - exists inst. split; [reflexivity |].
    apply (objective_is_flow_out_of_source maxflow_dat inst "Zoo" "Home"
             results_yml E eq_refl eq_refl).
    + discriminate.
    + intros ij Hij. simpl in Hij.
      repeat (destruct Hij as [<- | Hij]; [split; reflexivity |]).
      destruct Hij.
    + apply is_feasibleb_spec. vm_compute in E. injection E as <-.
      vm_compute. reflexivity.
  - vm_compute in E. discriminate E.
Defined.

(** X13. If the arcs into the sink have finite capacities, the objective
    of every feasible flow lies between 0 and the sum of these
    capacities, so a solve cannot truthfully report [unbounded]. *)
Theorem maxflow_is_bounded data inst sv tv :
  create_instance data = Ok inst ->
  s data = Some sv -> t data = Some tv ->
  (forall ij, In ij (A data) -> into tv ij = true ->
              exists q, c data !! ij = Some (Fin q)) ->
  (forall x, is_feasible (to_model inst) x ->
     0 <= value_of (to_model inst) x <= capacity_into data tv) /\
  ~ solved (to_model inst) unbounded.
Proof.
  intros H Hs Ht Hfin.
  pose proof (create_instance_Ok' _ _ H)
    as (_ & _ & _ & (e & He & Htot) & _ & _).
  rewrite (total_rule_Ok _ _ Ht) in He. injection He as <-.
  assert (Hval : forall x, value_of (to_model inst) x == inflow data tv x).
  { intros x. unfold value_of, to_model; simpl. rewrite Htot; simpl.
    apply eval_flows. }
  assert (Hbound : forall x, is_feasible (to_model inst) x ->
            0 <= value_of (to_model inst) x <= capacity_into data tv).
  { intros x Hx.
    destruct (feasible_flow_obeys _ _ _ _ _ H Hs Ht Hx) as [Harcs _].
    rewrite Hval. unfold inflow, capacity_into. split.
    - apply sum_over_nonneg. intros ij Hij. apply filter_In in Hij as [Hij _].
      apply (Harcs ij Hij).
    - apply sum_over_le. intros ij Hij. apply filter_In in Hij as [Hij Hinto].
      destruct (Hfin ij Hij Hinto) as (q & Hq).
      destruct (Harcs ij Hij) as (_ & cij & Hc & Hle).
      rewrite Hq in Hc |- *. injection Hc as <-. exact Hle. }
  split; [exact Hbound |].
  intros Hub. destruct (Hub (capacity_into data tv + 1)) as (x & Hx & Hbig).
  unfold to_model in Hbig at 1; simpl in Hbig. rewrite Htot in Hbig.
  simpl in Hbig. destruct (Hbound x Hx) as [_ Hle]. lra.
Qed.

Lemma maxflow_is_bounded_witness :
  exists inst,
    create_instance maxflow_dat = Ok inst /\
    value_of (to_model inst) results_yml <= capacity_into maxflow_dat "Home".
Proof.
  destruct (create_instance maxflow_dat) as [inst | e] eqn:E.
  - exists inst. split; [reflexivity |].
    apply (maxflow_is_bounded maxflow_dat inst "Zoo" "Home" E eq_refl eq_refl).
    + intros ij Hij Hinto. simpl in Hij.
      repeat (destruct Hij as [<- | Hij];
              [first [discriminate Hinto | eexists; vm_compute; reflexivity] |]).
      destruct Hij.
    + apply is_feasibleb_spec. vm_compute in E. injection E as <-.
      vm_compute. reflexivity.
  - vm_compute in E. discriminate E.
Defined.

(** X14. The capacity parameter declares no domain.  A negative capacity
    is therefore not rejected when the data are loaded; it leaves the
    instance without any feasible flow, and a solve can only report
    [infeasible]. *)
Theorem negative_capacity_is_infeasible data inst ij q :
  create_instance data = Ok inst ->
  In ij (A data) -> c data !! ij = Some (Fin q) -> q < 0 ->
  (forall x, ~ is_feasible (to_model inst) x) /\
  solved (to_model inst) infeasible /\
  (forall o, solved (to_model inst) o -> o = infeasible).
Proof.
  intros H Hij Hc Hneg.
  assert (Hnone : forall x, ~ is_feasible (to_model inst) x).
  { intros x [Hd Hcs].
    destruct (limit_instance _ _ _ H Hij) as (cij & Hc' & Hin).
    assert (cij = Fin q) as -> by congruence.
    specialize (Hcs _ Hin). simpl in Hcs.
    assert (Hpos : 0 <= x ij).
    { apply (contains_nonneg f_domain). apply (Hd ij). simpl.
      apply create_instance_Ok' in H as (_ & _ & -> & _). exact Hij. }
    lra. }
  split; [exact Hnone |]. apply infeasible_verdict, Hnone.
Qed.

Lemma negative_capacity_is_infeasible_witness :
  exists inst,
    create_instance negative_capacity = Ok inst /\
    solved (to_model inst) infeasible.
Proof.
  destruct (create_instance negative_capacity) as [inst | e] eqn:E.
  - exists inst. split; [reflexivity |].
    apply (negative_capacity_is_infeasible negative_capacity inst
             ("s", "t") (-1) E).
    + left. reflexivity.
    + vm_compute. reflexivity.
    + reflexivity.
  - vm_compute in E. discriminate E.
Defined.

(** X15. An instance of the max-flow model has one variable and one
    capacity constraint per arc, and one flow constraint per node other
    than the source and the sink: the flow rule skips these two and no
    other node. *)
Theorem maxflow_instance_shape data inst sv tv :
  create_instance data = Ok inst ->
  s data = Some sv -> t data = Some tv ->
  flows inst = A data /\
  map fst (limit inst) = A data /\
  map fst (flow inst) = List.filter (inner sv tv) (N data).
Proof.
  intros H Hs Ht.
  pose proof (create_instance_Ok' _ _ H) as (_ & _ & Hfl & _ & Hlim & Hflow).
  split; [exact Hfl |]. split.
  - rewrite (Constraint_indices _ (fun _ => true) _ _ Hlim); [apply filter_all |].
    intros [i j] _. split; [| discriminate].
    intros Hskip. apply limit_rule_Ok in Hskip as (? & _ & ?). discriminate.
  - apply (Constraint_indices _ _ _ _ Hflow).
    intros k _. rewrite (flow_rule_skip_iff _ _ _ _ Hs Ht). unfold inner.
    destruct (String.eqb_spec k sv), (String.eqb_spec k tv); simpl;
      split; auto; try discriminate; intros [? | ?]; contradiction.
Qed.

Lemma maxflow_instance_shape_witness :
  exists inst,
    create_instance maxflow_dat = Ok inst /\
    map fst (flow inst) = ["A"; "B"; "C"; "D"; "E"].
Proof.
  destruct (create_instance maxflow_dat) as [inst | e] eqn:E.
  - exists inst. split; [reflexivity |].
    apply (maxflow_instance_shape maxflow_dat inst "Zoo" "Home" E
             eq_refl eq_refl).
  - vm_compute in E. discriminate E.
Defined.

(** X16. If no capacity of an instance is negative, the flow that is zero
    on every arc is feasible and has objective 0: a solve cannot
    truthfully report [infeasible]. *)
Theorem no_flow_is_feasible data inst sv tv :
  create_instance data = Ok inst ->
  s data = Some sv -> t data = Some tv ->
  (forall ij cij, c data !! ij = Some cij -> num_le (Fin 0) cij) ->
  is_feasible (to_model inst) no_flow /\
  value_of (to_model inst) no_flow == 0 /\
  ~ solved (to_model inst) infeasible.
Proof.
  intros H Hs Ht Hcap.
  assert (Hzero : forall l : list arc, sum_over no_flow l == 0)
    by (intros l; apply sum_over_const_zero).
  assert (Hfeas : is_feasible (to_model inst) no_flow).
  { apply (obedient_flow_feasible _ _ _ _ _ H Hs Ht).
    - intros ij _. split; [apply Qle_refl |]. intros cij Hc.
      apply (Hcap ij cij Hc).
    - intros k _ _. unfold inflow, outflow. rewrite !Hzero. reflexivity. }
  split; [exact Hfeas |]. split.
  - pose proof (create_instance_Ok' _ _ H)
      as (_ & _ & _ & (e & He & Htot) & _ & _).
    rewrite (total_rule_Ok _ _ Ht) in He. injection He as <-.
    unfold value_of, to_model; simpl. rewrite Htot; simpl.
    rewrite eval_flows. apply Hzero.
  - intros Hinf. apply (Hinf no_flow Hfeas).
Qed.

Lemma no_flow_is_feasible_witness :
  exists inst,
    create_instance chain = Ok inst /\
    is_feasible (to_model inst) no_flow.
Proof.
  destruct (create_instance chain) as [inst | e] eqn:E.
  - exists inst. split; [reflexivity |].
    apply (no_flow_is_feasible chain inst "s" "t" E eq_refl eq_refl).
    intros ij cij Hc.
    destruct (create_instance_checked' chain inst E) as (_ & _ & _ & Hkeys).
    pose proof (Hkeys ij cij Hc) as Hij. simpl in Hij.
    destruct Hij as [<- | [<- | []]]; vm_compute in Hc; injection Hc as <-;
      vm_compute; discriminate.
  - vm_compute in E. discriminate E.
Defined.

(** X17. The sink is read only where the rules need it.  Without a sink
    in the data the objective of a network that has arcs raises a
    missing-data error, the objective of a network without arcs is the
    number 0, and the flow rule still skips the source. *)
Theorem missing_sink data :
  t data = None ->
  (A data <> [] -> total_rule data = Raise MissingDataError) /\
  (A data = [] -> total_rule data = Ok (PyNumber 0)) /\
  (forall sv, s data = Some sv -> flow_rule data sv = Ok Skip) /\
  (forall sv k, s data = Some sv -> k <> sv ->
                flow_rule data k = Raise MissingDataError).
Proof.
  intros Ht. repeat split.
  - unfold total_rule, value_t, param_value. rewrite Ht.
    destruct (A data) as [| [i j] l]; [congruence | reflexivity].
  - unfold total_rule. intros ->. reflexivity.
  - intros sv Hs. unfold flow_rule, value_s, param_value. rewrite Hs; simpl.
    rewrite String.eqb_refl. reflexivity.
  - intros sv k Hs Hk. unfold flow_rule, value_s, value_t, param_value.
    rewrite Hs, Ht; simpl. apply String.eqb_neq in Hk. rewrite Hk. reflexivity.
Qed.

Lemma missing_sink_witness :
  total_rule no_sink = Raise MissingDataError /\
  flow_rule no_sink "s" = Ok Skip.
Proof.
  destruct (missing_sink no_sink eq_refl) as (Htot & _ & Hskip & _).
  split; [apply Htot; discriminate | apply Hskip; reflexivity].
Defined.

Lemma reordered_sym' d1 d2 : reordered d1 d2 -> reordered d2 d1.
Proof.
  intros (HN & HA & Hs & Ht & Hc).
  repeat split; auto; symmetry; assumption.
Qed.

Lemma sum_over_filter_Permutation (x : assignment arc) (p : arc -> bool)
    (l l' : list arc) :
  Permutation l l' ->
  sum_over x (List.filter p l) == sum_over x (List.filter p l').
Proof.
  intros Hp. rewrite !sum_over_filter. apply sum_over_Permutation, Hp.
Qed.

Lemma reordered_flow_feasible d1 d2 inst1 inst2 sv tv x :
  reordered d1 d2 ->
  create_instance d1 = Ok inst1 -> create_instance d2 = Ok inst2 ->
  s d1 = Some sv -> t d1 = Some tv ->
  is_feasible (to_model inst1) x -> is_feasible (to_model inst2) x.
Proof.
  intros (HN & HA & Hs & Ht & Hc) H1 H2 Hsv Htv Hx.
  destruct (feasible_flow_obeys _ _ _ _ _ H1 Hsv Htv Hx) as [Harcs Hnodes].
  apply (obedient_flow_feasible _ _ sv tv _ H2); try congruence.
  - intros ij Hij.
    destruct (Harcs ij (Permutation_in _ (Permutation_sym HA) Hij))
      as (Hpos & cij & Hcij & Hle).
    split; [exact Hpos |]. intros cij' Hc'. rewrite <- Hc in Hc'. congruence.
  - intros k Hk Hinner.
    specialize (Hnodes k (Permutation_in _ (Permutation_sym HN) Hk) Hinner).
    unfold inflow, outflow in *.
    rewrite <- (sum_over_filter_Permutation x (into k) _ _ HA).
    rewrite <- (sum_over_filter_Permutation x (out_of k) _ _ HA).
    exact Hnodes.
Qed.

(** X19. The order in which the data list the nodes and the arcs does not
    matter: two data sets that differ only in these orders give instances
    with the same feasible flows and the same objective values. *)
Theorem maxflow_order_is_irrelevant d1 d2 inst1 inst2 sv tv x :
  reordered d1 d2 ->
  create_instance d1 = Ok inst1 -> create_instance d2 = Ok inst2 ->
  s d1 = Some sv -> t d1 = Some tv ->
  (is_feasible (to_model inst1) x <-> is_feasible (to_model inst2) x) /\
  value_of (to_model inst1) x == value_of (to_model inst2) x.
Proof.
  intros Hr H1 H2 Hsv Htv.
  pose proof Hr as (HN & HA & Hs & Ht & Hc).
  split.
  - split.
    + apply (reordered_flow_feasible _ _ _ _ _ _ _ Hr H1 H2 Hsv Htv).
    + apply (reordered_flow_feasible _ _ _ _ sv tv _ (reordered_sym' _ _ Hr)
               H2 H1); congruence.
  - pose proof (create_instance_Ok' _ _ H1)
      as (_ & _ & _ & (e1 & He1 & Htot1) & _ & _).
    pose proof (create_instance_Ok' _ _ H2)
      as (_ & _ & _ & (e2 & He2 & Htot2) & _ & _).
    rewrite (total_rule_Ok _ _ Htv) in He1. injection He1 as <-.
    rewrite (total_rule_Ok d2 tv) in He2 by congruence. injection He2 as <-.
    unfold value_of, to_model; simpl. rewrite Htot1, Htot2; simpl.
    rewrite !eval_flows. apply sum_over_filter_Permutation, HA.
Qed.

Lemma maxflow_order_is_irrelevant_witness :
  exists inst1 inst2,
    create_instance chain = Ok inst1 /\
    create_instance chain_reversed = Ok inst2 /\
    is_feasible (to_model inst2) four_through.
Proof.
  destruct (create_instance chain) as [inst1 | e] eqn:E1;
    [| vm_compute in E1; discriminate E1].
  destruct (create_instance chain_reversed) as [inst2 | e] eqn:E2;
    [| vm_compute in E2; discriminate E2].
  exists inst1, inst2.
  split; [reflexivity |]. split; [reflexivity |].
  apply (maxflow_order_is_irrelevant chain chain_reversed inst1 inst2
           "s" "t" four_through); [| exact E1 | exact E2 | reflexivity
                                   | reflexivity |].
  - repeat split; simpl; try reflexivity.
    + apply (Permutation_rev ["s"; "a"; "t"]).
    + apply perm_swap.
  - apply is_feasibleb_spec. vm_compute in E1. injection E1 as <-.
    vm_compute. reflexivity.
Defined.

End MaxFlowInstances.

(** * Missing data *)

(** The generator [p[i] * x[i] for i in l] over a parameter without
    default either finds every value or raises a missing-data error at a
    missing one. *)
Lemma for_each_term_cases (decl : Param Q) (look : string -> option Q)
    (l : list string) :
  default_value decl = None ->
  (exists ts,
     for_each (fun i => q ← param_value decl (look i); Ok (q, i)) l = Ok ts /\
     forall i, In i l -> look i <> None) \/
  (for_each (fun i => q ← param_value decl (look i); Ok (q, i)) l
     = Raise MissingDataError /\
   exists i, In i l /\ look i = None).
Proof.
  intros Hd.
  set (g := fun i => q ← param_value decl (look i); Ok (q, i)).
  assert (Hg : forall i, g i = match look i with
                               | Some q => Ok (q, i)
                               | None => Raise MissingDataError
                               end).
  { intros i. unfold g, param_value. rewrite Hd.
    destruct (look i); reflexivity. }
  induction l as [| i l IH].
  - left. exists []. split; [reflexivity | intros i []].
  - change (for_each g (i :: l))
      with (b ← g i; bs ← for_each g l; Ok (b :: bs)).
    rewrite Hg. destruct (look i) as [q |] eqn:E.
    + destruct IH as [(ts & Hts & Hall) | (Hr & i' & Hi' & Hnone)];
        rewrite ?Hts, ?Hr; simpl.
      * left. exists ((q, i) :: ts). split; [reflexivity |].
        intros i' [<- | Hi']; [congruence | auto].
      * right. split; [reflexivity |]. exists i'.
        split; [right; exact Hi' | exact Hnone].
    + right. split; [reflexivity |]. exists i.
      split; [left; reflexivity | exact E].
Qed.

Section MissingData.
Import Diet.

(** Instantiation is loading followed by the rules. *)
Lemma create_instance_load data :
  create_instance data =
    (_ ← load data;
     cost ← Objective (cost_rule data) None;
     nutrient_limit ← Constraint (N data) (nutrient_rule data);
     volume ← Constraint [tt] (fun _ => volume_rule data);
     Ok (mkInstance (F data) cost nutrient_limit volume)).
Proof.
  unfold create_instance, load.
  destruct (construct_set _ (F data)) as [f | e] eqn:Ef; [| reflexivity].
  apply construct_set_Ok in Ef as [-> _].
  destruct (construct_set _ (N data)) as [n | e] eqn:En; [| reflexivity].
  apply construct_set_Ok in En as [-> _]. cbn [mbind result_bind].
  destruct (construct_param c_decl _ _); [| reflexivity].
  destruct (construct_param a_decl _ _); [| reflexivity].
  destruct (construct_param Nmin_decl _ _); [| reflexivity].
  destruct (construct_param Nmax_decl _ _); [| reflexivity].
  destruct (construct_param V_decl _ _); [| reflexivity].
  destruct (construct_param Vmax_decl _ _); reflexivity.
Qed.

(** Loading asks for no value: it raises nothing but a data-validation
    error. *)
Lemma load_raises data e : load data = Raise e -> e = DataValidationError.
Proof.
  unfold load. intros H.
  repeat match type of H with
  | (construct_set ?w ?l ≫= _) = Raise _ =>
      apply bind_Raise in H as [H | (? & _ & H)];
      [apply construct_set_raises in H; exact H |]
  | (construct_param ?p ?i ?d ≫= _) = Raise _ =>
      apply bind_Raise in H as [H | (? & _ & H)];
      [apply construct_param_raises in H; exact H |]
  end.
  discriminate.
Qed.

Lemma cost_stage data :
  (exists cost, Objective (cost_rule data) None = Ok cost /\
                forall i, In i (F data) -> c data !! i <> None) \/
  (Objective (cost_rule data) None = Raise MissingDataError /\
   exists i, In i (F data) /\ c data !! i = None).
Proof.
  unfold Objective, cost_rule.
  destruct (for_each_term_cases c_decl (fun i => c data !! i) (F data) eq_refl)
    as [(ts & -> & Hall) | (-> & Hnone)]; simpl; eauto.
Qed.

Lemma nutrient_rule_cases data j :
  (exists rel, nutrient_rule data j = Ok (Rel rel) /\
               forall i, In i (F data) -> a data !! (i, j) <> None) \/
  (nutrient_rule data j = Raise MissingDataError /\
   exists i, In i (F data) /\ a data !! (i, j) = None).
Proof.
  unfold nutrient_rule, inequality.
  destruct (for_each_term_cases a_decl (fun i => a data !! (i, j)) (F data)
              eq_refl) as [(ts & -> & Hall) | (-> & Hnone)]; simpl; [| eauto].
  left. unfold param_value; simpl.
  destruct (Nmin data !! j), (Nmax data !! j); simpl; eauto.
Qed.

Lemma nutrient_stage data (index : list string) :
  (exists nl, Constraint index (nutrient_rule data) = Ok nl /\
              forall i j, In i (F data) -> In j index ->
                          a data !! (i, j) <> None) \/
  (Constraint index (nutrient_rule data) = Raise MissingDataError /\
   exists i j, In i (F data) /\ In j index /\ a data !! (i, j) = None).
Proof.
  induction index as [| j index IH]; simpl.
  - left. exists []. split; [reflexivity | intros i j _ []].
  - destruct (nutrient_rule_cases data j)
      as [(rel & -> & Hall) | (-> & i & Hi & Hnone)]; simpl.
    + destruct IH as [(nl & -> & Hrest) | (-> & i & j' & Hi & Hj' & Hnone)];
        simpl.
      * left. exists ((j, rel) :: nl). split; [reflexivity |].
        intros i j' Hi [<- | Hj']; auto.
      * right. split; [reflexivity |]. exists i, j'. auto.
    + right. split; [reflexivity |]. exists i, j. auto.
Qed.

Lemma volume_stage data :
  ((exists vol, Constraint [tt] (fun _ => volume_rule data) = Ok vol) \/
   Constraint [tt] (fun _ => volume_rule data) = Raise ModelDefinitionError) /\
  (forall i, In i (F data) -> V data !! i <> None) /\ Vmax data <> None
  \/
  Constraint [tt] (fun _ => volume_rule data) = Raise MissingDataError /\
  ((exists i, In i (F data) /\ V data !! i = None) \/ Vmax data = None).
Proof.
  simpl. unfold volume_rule.
  destruct (for_each_term_cases V_decl (fun i => V data !! i) (F data) eq_refl)
    as [(ts & -> & Hall) | (-> & Hnone)]; simpl; [| auto].
  unfold param_value; simpl.
  destruct (Vmax data) as [vmax |]; simpl; [| auto].
  left. split; [| split; [exact Hall | discriminate]].
  destruct (py_le (pysum ts) vmax); simpl; eauto.
Qed.

(** The flow rule skips the source without reading the sink, and so
    every node of a network whose nodes are all the source. *)
Lemma flow_rule_at_source net k :
  MaxFlow.s net = Some k -> MaxFlow.flow_rule net k = Ok Skip.
Proof.
  intros Hs. unfold MaxFlow.flow_rule, MaxFlow.value_s, param_value.
  rewrite Hs; simpl. rewrite String.eqb_refl. reflexivity.
Qed.

Lemma flow_skips_the_source net (index : list string) :
  (forall k, In k index -> MaxFlow.s net = Some k) ->
  Constraint index (MaxFlow.flow_rule net) = Ok [].
Proof.
  induction index as [| k index IH]; intros Hs; [reflexivity |].
  cbn [Constraint]. rewrite (flow_rule_at_source net k (Hs k (or_introl eq_refl))).
  cbn [mbind result_bind]. apply IH. intros k' Hk'. apply Hs.
  right. exact Hk'.
Qed.




End MissingData.
